(** * Jellyfin Chromecast receiver: session reporter and playback manager

    A shallow embedding of [jellyfinActions.ts] (the session reporter: start,
    progress and stop reports, the keep-alive ping of a transcode, the bitrate
    probe) and of [playbackManager.ts] (the playlist, the playback state, the
    negotiation of a media source), with the properties of the playback
    specification proved or refuted on it.

    JavaScript runs one task at a time: a function body runs to its end, or to
    its next [await], before a timer callback or another task starts.  Every
    function below is therefore a transformer of the state of the page, and
    every effect that leaves the function (a request to the server, a message
    to the senders, a call into the browser or the cast framework) is appended
    to a chronological trace. *)

From Stdlib Require Import ZArith Lia List Bool.
From stdpp Require Import base option gmap strings list sorting.

Local Open Scope Z_scope.

(** ** Data of the server API *)

(** [PlayMethod] of the generated client. *)
Inductive PlayMethod := Transcode | DirectStream | DirectPlay.

(** The fields of [PlaybackProgressInfo] that the reporter reads.  A field
    that is absent from the JavaScript object is [None]. *)
Record PlaybackProgressInfo := mkProgressInfo {
  rp_PlayMethod : option PlayMethod;
  rp_PlaySessionId : string;
  rp_ItemId : string;
  rp_PositionTicks : Z
}.

Record MediaSourceInfo := mkMediaSource {
  ms_Id : string;
  RequiresOpening : bool;
  OpenToken : string;
  SupportsDirectPlay : bool
}.

Record BaseItemDto := mkItem {
  Id : string;
  MediaType : option string
}.

(** [PlaybackState] of [playbackManager.ts], field by field; [None] stands
    for [null] (and for [undefined] in [playMethod] and [mediaType]). *)
Record PlaybackState := mkPlaybackState {
  startPositionTicks : Z;
  mediaType : option string;
  itemId : string;
  audioStreamIndex : option Z;
  subtitleStreamIndex : option Z;
  mediaSource : option MediaSourceInfo;
  mediaSourceId : string;
  PlaybackMediaSource : option MediaSourceInfo;
  playMethod : option PlayMethod;
  canSeek : bool;
  isChangingStream : bool;
  playNextItemBool : bool;
  item : option BaseItemDto;
  liveStreamId : string;
  playSessionId : string;
  runtimeTicks : Z
}.

(** ** Effects *)

(** The server endpoints that [JellyfinApi.authAjax] is called with. *)
Inductive Endpoint :=
  | SessionsPlaying                       (* Sessions/Playing *)
  | SessionsPlayingProgress               (* Sessions/Playing/Progress *)
  | SessionsPlayingStopped                (* Sessions/Playing/Stopped *)
  | SessionsPlayingPing (sid : string)    (* Sessions/Playing/Ping?playSessionId=sid *)
  | ItemsPlaybackInfo (itemId : string)   (* Items/itemId/PlaybackInfo *)
  | LiveStreamsOpen                       (* LiveStreams/Open *)
  | PlaybackBitrateTest (size : Z)        (* Playback/BitrateTest?size=size *)
  | VideosActiveEncodings.                (* Videos/ActiveEncodings *)

(** What a request carries. *)
Inductive Payload :=
  | ReportingParams (p : PlaybackProgressInfo)   (* JSON.stringify(reportingParams) *)
  | PingData (sid : string)                      (* { PlaySessionId } *)
  | PlaybackInfoQuery (maxBitrate startTimeTicks : Z)
      (mediaSourceId : option string) (audio subtitle : option Z)
      (liveStreamId : option string)
  | LiveStreamQuery (itemId playSessionId : string) (maxBitrate startTimeTicks : Z)
      (openToken : string) (audio subtitle : option Z)
  | EncodingsQuery (playSessionId : string)
  | NoPayload.

Inductive Event :=
  | DateNow (t : Z)                                (* new Date().getTime() returned t *)
  | AuthAjax (e : Endpoint) (type : string) (data : Payload)
  | Broadcast (type : string) (state : PlaybackState) (p : PlaybackProgressInfo)
  | SetInterval (id : Z) (p : PlaybackProgressInfo) (ms : Z)
  | ClearInterval (h : option Z)
  | ConsoleDebug (msg : string)
  | ShowPlaybackInfoErrorMessage (code : string)
  | CheckDirectPlay (source : MediaSourceInfo)
  | Call (callee : string).                        (* DocumentManager, playerManager, helpers *)

(** ** The state of the page *)

(** The two module variables of [jellyfinActions.ts], the interval table of
    the browser and the trace.  [pingInterval] is declared without a value, so
    it starts [undefined] ([None]); the browser hands out the handles
    [nextTimer], [nextTimer + 1], ... and [timers] maps each live handle to
    the [reportingParams] its callback closes over. *)
Record World := mkWorld {
  pingInterval : option Z;
  lastTranscoderPing : Z;
  timers : gmap Z PlaybackProgressInfo;
  nextTimer : Z;
  trace : list Event
}.

Definition emit (e : Event) (w : World) : World :=
  mkWorld (pingInterval w) (lastTranscoderPing w) (timers w) (nextTimer w)
          (trace w ++ [e]).

Definition set_pingInterval (h : option Z) (w : World) : World :=
  mkWorld h (lastTranscoderPing w) (timers w) (nextTimer w) (trace w).

Definition set_lastTranscoderPing (t : Z) (w : World) : World :=
  mkWorld (pingInterval w) t (timers w) (nextTimer w) (trace w).

(** [clearInterval(h)] of the browser: a handle that names no live interval
    (also [undefined]) is ignored. *)
Definition clearInterval (h : option Z) (w : World) : World :=
  emit (ClearInterval h)
    (mkWorld (pingInterval w) (lastTranscoderPing w)
       (match h with Some n => delete n (timers w) | None => timers w end)
       (nextTimer w) (trace w)).

(** [setInterval(callback, ms)] of the browser, for the callback
    [() => pingTranscoder(p)]. *)
Definition setInterval (p : PlaybackProgressInfo) (ms : Z) (w : World) : Z * World :=
  let id := nextTimer w in
  (id, emit (SetInterval id p ms)
         (mkWorld (pingInterval w) (lastTranscoderPing w)
            (<[id := p]> (timers w)) (id + 1) (trace w))).

(** A fresh page: nothing reported, no interval, handles from 1. *)
Definition world0 : World := mkWorld None 0 ∅ 1 [].

(** What the caller of a reporting function holds afterwards: a promise that
    is already resolved, or the promise of the request just issued. *)
Inductive Promise := Resolved | Pending.

(** ** The session reporter ([jellyfinActions.ts]) *)

(** [pingInterval !== 0] *)
Definition handle_set (h : option Z) : bool :=
  match h with
  | Some n => negb (n =? 0)
  | None => true
  end.

Definition stopPingInterval (w : World) : World :=
  if handle_set (pingInterval w)
  then set_pingInterval (Some 0) (clearInterval (pingInterval w) w)
  else w.

(** [reportingParams.PlayMethod == 'Transcode'] *)
Definition is_Transcode (m : option PlayMethod) : bool :=
  match m with
  | Some Transcode => true
  | _ => false
  end.

Definition restartPingInterval (reportingParams : PlaybackProgressInfo) (w : World) : World :=
  let w1 := stopPingInterval w in
  if is_Transcode (rp_PlayMethod reportingParams)
  then let '(id, w2) := setInterval reportingParams 1000 w1 in
       set_pingInterval (Some id) w2
  else w1.

Definition reportPlaybackStart (state : PlaybackState)
    (reportingParams : PlaybackProgressInfo) (w : World) : Promise * World :=
  let w := emit (Call "DocumentManager.clearBackdropInterval") w in
  let w := emit (Broadcast "playbackstart" state reportingParams) w in
  let w := restartPingInterval reportingParams w in
  (Pending, emit (AuthAjax SessionsPlaying "POST" (ReportingParams reportingParams)) w).

(** [now] is what [new Date().getTime()] returns in this call. *)
Definition reportPlaybackProgress (state : PlaybackState)
    (reportingParams : PlaybackProgressInfo) (reportToServer : bool)
    (broadcastEventName : string) (now : Z) (w : World) : Promise * World :=
  let w := emit (Broadcast broadcastEventName state reportingParams) w in
  if negb reportToServer then (Resolved, w)
  else
    let w := restartPingInterval reportingParams w in
    let w := set_lastTranscoderPing now (emit (DateNow now) w) in
    (Pending, emit (AuthAjax SessionsPlayingProgress "POST" (ReportingParams reportingParams)) w).

Definition reportPlaybackStopped (state : PlaybackState)
    (reportingParams : PlaybackProgressInfo) (w : World) : Promise * World :=
  let w := stopPingInterval w in
  let w := emit (Broadcast "playbackstop" state reportingParams) w in
  (Pending, emit (AuthAjax SessionsPlayingStopped "POST" (ReportingParams reportingParams)) w).

(** [now] and [now'] are the two clock readings of the body, in order. *)
Definition pingTranscoder (reportingParams : PlaybackProgressInfo)
    (now now' : Z) (w : World) : Promise * World :=
  let w := emit (DateNow now) w in
  if now - lastTranscoderPing w <? 5000
  then (Resolved, emit (ConsoleDebug "Skipping ping due to recent progress check-in") w)
  else
    let w := set_lastTranscoderPing now' (emit (DateNow now') w) in
    (Pending,
     emit (AuthAjax (SessionsPlayingPing (rp_PlaySessionId reportingParams)) "POST"
             (PingData (rp_PlaySessionId reportingParams))) w).

(** The browser runs the callback of the interval [id], if it is live. *)
Definition tick (id : Z) (now now' : Z) (w : World) : World :=
  match timers w !! id with
  | Some p => snd (pingTranscoder p now now' w)
  | None => w
  end.

(** ** The bitrate probe ([getDownloadSpeed], [detectBitrate]) *)

(** A JavaScript number as the probe sees it: a finite whole number (sizes
    are whole bytes, times whole milliseconds, and [Math.round] returns a
    whole number), or one of the three values that a division by a response
    time of zero produces. *)
Inductive jsnum := Fin (z : Z) | PosInf | NegInf | NaN.

(** [Math.round] of the quotient [p / q] for [0 < q], in exact arithmetic:
    the nearest whole number, a half rounding up.  The source divides and
    multiplies in double precision: where the exact quotient lies within the
    rounding error of a half, its result can be the whole number next to
    this one. *)
Definition round_div (p q : Z) : Z := (2 * p + q) / (2 * q).

(** The value [getDownloadSpeed(byteSize)] returns when its request is
    answered [elapsed] milliseconds after it was sent:
    [Math.round(byteSize / (elapsed / 1000) * 8)]. *)
Definition downloadSpeed (byteSize elapsed : Z) : jsnum :=
  if elapsed =? 0 then
    if 0 <? byteSize then PosInf else if byteSize <? 0 then NegInf else NaN
  else if 0 <? elapsed then Fin (round_div (8000 * byteSize) elapsed)
  else Fin (round_div (- (8000 * byteSize)) (- elapsed)).

(** What the transport does with one probe request: it answers after some
    milliseconds, or the request is rejected (it has a timeout of 5000). *)
Inductive Probe := Answered (elapsed : Z) | Failed.

(** [bitrate * (2 / 8.0) < numBytes] *)
Definition quarter_lt (bitrate : jsnum) (numBytes : Z) : bool :=
  match bitrate with
  | Fin b => b <? 4 * numBytes
  | NegInf => true
  | PosInf | NaN => false
  end.

(** [Math.round(bitrate * 0.8)] *)
Definition round_08 (bitrate : jsnum) : jsnum :=
  match bitrate with
  | Fin b => Fin (round_div (8 * b) 10)
  | other => other
  end.

Inductive Settled (A : Type) := Fulfilled (v : A) | Rejected (reason : string).
Arguments Fulfilled {A} v.
Arguments Rejected {A} reason.

Definition byteLimit : Z := 10000000.

(** [detectBitrate(numBytes)].  [net k] is what the transport does with the
    [k]-th probe request from now on.  The recursion of the source has no
    measure that decreases, so the embedding counts the calls: [None] says
    that [fuel] calls were made and a further one is pending. *)
Fixpoint detectBitrate (fuel : nat) (net : nat -> Probe) (numBytes : Z)
    : option (Settled jsnum) :=
  match fuel with
  | O => None
  | S fuel' =>
      let numBytes := if byteLimit <? numBytes then byteLimit else numBytes in
      match net O with
      | Failed => Some (Rejected "BitrateTest")
      | Answered elapsed =>
          let bitrate := downloadSpeed numBytes elapsed in
          if quarter_lt bitrate numBytes || (byteLimit <=? numBytes)
          then Some (Fulfilled (round_08 bitrate))
          else detectBitrate fuel' (fun k => net (S k)) (numBytes * 2)
      end
  end.

(** ** The playback manager ([playbackManager.ts]) *)

(** The [options] object of a play request. *)
Record Options := mkOptions {
  items : list BaseItemDto;
  o_startPositionTicks : option Z;
  o_mediaSourceId : option string;
  o_audioStreamIndex : option Z;
  o_subtitleStreamIndex : option Z
}.

Record PlaybackInfoResponse := mkPlaybackInfo {
  ErrorCode : option string;
  MediaSources : list MediaSourceInfo;
  PlaySessionId : string
}.

Record LiveStreamResponse := mkLiveStream {
  MediaSource : option MediaSourceInfo
}.

(** [mediaInfo.customData], which [load] copies into the playback state. *)
Record CustomData := mkCustomData {
  cd_playSessionId : string;
  cd_audioStreamIndex : option Z;
  cd_subtitleStreamIndex : option Z;
  cd_startPositionTicks : Z;
  cd_canSeek : bool;
  cd_itemId : string;
  cd_liveStreamId : string;
  cd_mediaSourceId : string;
  cd_playMethod : option PlayMethod;
  cd_runtimeTicks : Z
}.

(** The fields of the class. *)
Record Manager := mkManager {
  playbackState : PlaybackState;
  activePlaylist : list BaseItemDto;
  activePlaylistIndex : Z
}.

(** The globals [window.playlist] and [window.currentPlaylistIndex]. *)
Record Window := mkWindow {
  playlist : list BaseItemDto;
  currentPlaylistIndex : Z
}.

Record Sys := mkSys {
  mgr : Manager;
  window : Window;
  page : World
}.

(** What the manager calls but does not define: the helpers of
    [helpers.ts] and [maincontroller.ts], and the answers of the server.
    They are parameters of the embedding.  An awaited value is [None] when
    its promise is rejected. *)
Record Env := mkEnv {
  getNextPlaybackItemInfo : Window -> option (Z * BaseItemDto);
  getMaxBitrate : option Z;
  getOptimalMediaSource : list MediaSourceInfo -> option MediaSourceInfo;
  (* the source object after [checkDirectPlay] has updated it in place *)
  checkDirectPlay : MediaSourceInfo -> MediaSourceInfo;
  (* [createMediaInformation(playSessionId, item, createStreamInfo(item,
     mediaSource, startPositionTicks)).customData] *)
  createCustomData : string -> BaseItemDto -> MediaSourceInfo -> option Z -> CustomData;
  answerPlaybackInfo : string -> option PlaybackInfoResponse;
  answerLiveStream : option LiveStreamResponse;
  (* the position the player is at, for a report *)
  currentPositionTicks : Z
}.

Definition on_page (f : World -> World) (s : Sys) : Sys :=
  mkSys (mgr s) (window s) (f (page s)).

Definition on_state (f : PlaybackState -> PlaybackState) (s : Sys) : Sys :=
  mkSys (mkManager (f (playbackState (mgr s))) (activePlaylist (mgr s))
           (activePlaylistIndex (mgr s)))
        (window s) (page s).

Definition set_playlist (l : list BaseItemDto) (i : Z) (s : Sys) : Sys :=
  mkSys (mkManager (playbackState (mgr s)) l i) (window s) (page s).

Definition set_activePlaylistIndex (i : Z) (s : Sys) : Sys :=
  set_playlist (activePlaylist (mgr s)) i s.

(** The initializer of the [playbackState] field. *)
Definition initialPlaybackState : PlaybackState :=
  {| audioStreamIndex := None; canSeek := false; isChangingStream := false;
     item := None; itemId := EmptyString; liveStreamId := EmptyString; mediaSource := None;
     mediaSourceId := EmptyString; mediaType := Some EmptyString; PlaybackMediaSource := None;
     playMethod := None; playNextItemBool := true; playSessionId := EmptyString;
     runtimeTicks := 0; startPositionTicks := 0; subtitleStreamIndex := None |}.

(** The constructor. *)
Definition newManager : Manager := mkManager initialPlaybackState [] 0.

(** The assignments of [resetPlaybackScope], in the order of the source. *)
Definition resetPlaybackState (st : PlaybackState) : PlaybackState :=
  {| startPositionTicks := 0;
     mediaType := Some EmptyString;
     itemId := EmptyString;
     audioStreamIndex := None;
     subtitleStreamIndex := None;
     mediaSource := None;
     mediaSourceId := EmptyString;
     PlaybackMediaSource := None;
     playMethod := None;
     canSeek := false;
     isChangingStream := false;
     playNextItemBool := true;
     item := None;
     liveStreamId := EmptyString;
     playSessionId := EmptyString;
     (* no assignment in the source *)
     runtimeTicks := runtimeTicks st |}.

Definition resetPlaybackScope (s : Sys) : Sys :=
  let s := on_page (emit (Call "DocumentManager.setAppStatus('waiting')")) s in
  let s := on_page (emit (Call "DocumentManager.setWaitingBackdrop")) s in
  let s := on_state resetPlaybackState s in
  let s := on_page (emit (Call "DocumentManager.setLogo")) s in
  on_page (emit (Call "DocumentManager.setDetailImage")) s.

(** The assignments of [load] of [jellyfinActions.ts] after the reset. *)
Definition loadPlaybackState (customData : CustomData) (serverItem : BaseItemDto)
    (st : PlaybackState) : PlaybackState :=
  {| playSessionId := cd_playSessionId customData;
     audioStreamIndex := cd_audioStreamIndex customData;
     subtitleStreamIndex := cd_subtitleStreamIndex customData;
     startPositionTicks := cd_startPositionTicks customData;
     canSeek := cd_canSeek customData;
     itemId := cd_itemId customData;
     liveStreamId := cd_liveStreamId customData;
     mediaSourceId := cd_mediaSourceId customData;
     playMethod := cd_playMethod customData;
     runtimeTicks := cd_runtimeTicks customData;
     item := Some serverItem;
     mediaType := MediaType serverItem;
     mediaSource := mediaSource st;
     PlaybackMediaSource := PlaybackMediaSource st;
     isChangingStream := isChangingStream st;
     playNextItemBool := playNextItemBool st |}.

Definition load (customData : CustomData) (serverItem : BaseItemDto) (s : Sys) : Sys :=
  let s := resetPlaybackScope s in
  let s := on_page (emit (Call "DocumentManager.setAppStatus('backdrop')")) s in
  on_state (loadPlaybackState customData serverItem) s.

Definition set_isChangingStream (b : bool) (st : PlaybackState) : PlaybackState :=
  {| startPositionTicks := startPositionTicks st; mediaType := mediaType st;
     itemId := itemId st; audioStreamIndex := audioStreamIndex st;
     subtitleStreamIndex := subtitleStreamIndex st; mediaSource := mediaSource st;
     mediaSourceId := mediaSourceId st; PlaybackMediaSource := PlaybackMediaSource st;
     playMethod := playMethod st; canSeek := canSeek st; isChangingStream := b;
     playNextItemBool := playNextItemBool st; item := item st;
     liveStreamId := liveStreamId st; playSessionId := playSessionId st;
     runtimeTicks := runtimeTicks st |}.

Definition set_playNextItemBool (b : bool) (st : PlaybackState) : PlaybackState :=
  {| startPositionTicks := startPositionTicks st; mediaType := mediaType st;
     itemId := itemId st; audioStreamIndex := audioStreamIndex st;
     subtitleStreamIndex := subtitleStreamIndex st; mediaSource := mediaSource st;
     mediaSourceId := mediaSourceId st; PlaybackMediaSource := PlaybackMediaSource st;
     playMethod := playMethod st; canSeek := canSeek st;
     isChangingStream := isChangingStream st; playNextItemBool := b; item := item st;
     liveStreamId := liveStreamId st; playSessionId := playSessionId st;
     runtimeTicks := runtimeTicks st |}.

(** [PlaybackMediaSource = mediaSource; mediaSource = mediaSource] *)
Definition set_mediaSources (src : MediaSourceInfo) (st : PlaybackState) : PlaybackState :=
  {| startPositionTicks := startPositionTicks st; mediaType := mediaType st;
     itemId := itemId st; audioStreamIndex := audioStreamIndex st;
     subtitleStreamIndex := subtitleStreamIndex st; mediaSource := Some src;
     mediaSourceId := mediaSourceId st; PlaybackMediaSource := Some src;
     playMethod := playMethod st; canSeek := canSeek st;
     isChangingStream := isChangingStream st;
     playNextItemBool := playNextItemBool st; item := item st;
     liveStreamId := liveStreamId st; playSessionId := playSessionId st;
     runtimeTicks := runtimeTicks st |}.

(** A string in a condition: [undefined], [null] and the empty string are
    false. *)
Definition truthy (o : option string) : option string :=
  match o with
  | Some s => if String.eqb s EmptyString then None else Some s
  | None => None
  end.

(** The request of [getPlaybackInfo]; the manager passes no [liveStreamId]. *)
Definition getPlaybackInfo (item : BaseItemDto) (maxBitrate : Z)
    (startPosition : option Z) (mediaSourceId : option string)
    (audioStreamIndex subtitleStreamIndex : option Z) (w : World) : World :=
  emit (AuthAjax (ItemsPlaybackInfo (Id item)) "POST"
          (PlaybackInfoQuery maxBitrate (default 0 startPosition)
             (truthy mediaSourceId) audioStreamIndex subtitleStreamIndex None)) w.

(** The request of [getLiveStream]. *)
Definition getLiveStream (item : BaseItemDto) (playSessionId : string)
    (maxBitrate : Z) (startPosition : option Z) (mediaSource : MediaSourceInfo)
    (audioStreamIndex subtitleStreamIndex : option Z) (w : World) : World :=
  emit (AuthAjax LiveStreamsOpen "POST"
          (LiveStreamQuery (Id item) playSessionId maxBitrate
             (default 0 startPosition) (OpenToken mediaSource)
             audioStreamIndex subtitleStreamIndex)) w.

(** [stopActiveEncodings(state)] *)
Definition stopActiveEncodings (state : PlaybackState) (w : World) : World :=
  emit (AuthAjax VideosActiveEncodings "DELETE"
          (EncodingsQuery (playSessionId state))) w.

(** Modelled from the spec: the reporting parameters of a session, which
    [maincontroller.ts] builds and which are missing here.  A play session is
    "a server-tracked correlation id spanning start, progress and stop
    reports", so the parameters of a report carry the identifiers and the play
    method of the playback state. *)
Definition getReportingParams (position : Z) (st : PlaybackState) : PlaybackProgressInfo :=
  {| rp_PlayMethod := playMethod st;
     rp_PlaySessionId := playSessionId st;
     rp_ItemId := itemId st;
     rp_PositionTicks := position |}.

Section WithEnv.

Variable env : Env.

(** Modelled from the spec: [stop] of [jellyfinActions], which the manager
    imports and calls first in its own [stop], and which is missing from
    the source of the reporter.  By the spec the manager's stop "issues the
    server-side stopped report": the stop report of the reporter for the
    session of the playback state. *)
Definition jellyfinActions_stop (s : Sys) : Sys :=
  let st := playbackState (mgr s) in
  on_page (fun w => snd (reportPlaybackStopped st
                           (getReportingParams (currentPositionTicks env) st) w)) s.

Definition stop (continuing : bool) (s : Sys) : Sys :=
  let s := on_state (set_playNextItemBool continuing) s in
  let s := jellyfinActions_stop s in
  let s := on_page stopPingInterval s in
  let s := on_page (emit (Call "playerManager.stop")) s in
  let s := set_playlist [] (-1) s in
  on_page (emit (Call "DocumentManager.startBackdropInterval")) s.

Definition playMediaSource (playSessionId : string) (item : BaseItemDto)
    (mediaSource : MediaSourceInfo) (options : Options) (s : Sys) : Sys :=
  let s := on_page (emit (Call "DocumentManager.setAppStatus('loading')")) s in
  let customData :=
    createCustomData env playSessionId item mediaSource (o_startPositionTicks options) in
  let s := load customData item s in
  let s := on_page (emit (Call "playerManager.load")) s in
  let s := on_state (set_mediaSources mediaSource) s in
  let s := on_page (emit (Call "DocumentManager.setPlayerBackdrop")) s in
  on_page (emit (Call "playerManager.setMediaInformation")) s.

(** [item] is [None] when the caller passes [undefined] (an index outside
    the playlist); reading [item.Id] then throws. *)
Definition playItemInternal (item : option BaseItemDto) (options : Options)
    (s : Sys) : Settled unit * Sys :=
  let s := on_state (set_isChangingStream false) s in
  let s := on_page (emit (Call "DocumentManager.setAppStatus('loading')")) s in
  let s := on_page (emit (Call "getMaxBitrate")) s in
  match getMaxBitrate env with
  | None => (Rejected "getMaxBitrate", s)
  | Some maxBitrate =>
  let s := on_page (emit (Call "getDeviceProfile")) s in
  match item with
  | None => (Rejected "TypeError", s)
  | Some item =>
  let s := on_page (getPlaybackInfo item maxBitrate (o_startPositionTicks options)
                      (o_mediaSourceId options) (o_audioStreamIndex options)
                      (o_subtitleStreamIndex options)) s in
  match answerPlaybackInfo env (Id item) with
  | None =>
      (* [.catch(broadcastConnectionErrorMessage)] leaves [undefined] *)
      (Rejected "TypeError", on_page (emit (Call "broadcastConnectionErrorMessage")) s)
  | Some playbackInfo =>
  match truthy (ErrorCode playbackInfo) with
  | Some code => (Fulfilled tt, on_page (emit (ShowPlaybackInfoErrorMessage code)) s)
  | None =>
  let s := on_page (emit (Call "getOptimalMediaSource")) s in
  match getOptimalMediaSource env (MediaSources playbackInfo) with
  | None =>
      (Fulfilled tt, on_page (emit (ShowPlaybackInfoErrorMessage "NoCompatibleStream")) s)
  | Some mediaSource =>
  if RequiresOpening mediaSource then
    let s := on_page (getLiveStream item (PlaySessionId playbackInfo) maxBitrate
                        (o_startPositionTicks options) mediaSource None None) s in
    match answerLiveStream env with
    | None => (Rejected "LiveStreams/Open", s)
    | Some openLiveStreamResult =>
        match MediaSource openLiveStreamResult with
        | Some opened =>
            let s := on_page (emit (CheckDirectPlay opened)) s in
            (Fulfilled tt,
             playMediaSource (PlaySessionId playbackInfo) item
               (checkDirectPlay env opened) options s)
        | None =>
            (Fulfilled tt,
             playMediaSource (PlaySessionId playbackInfo) item mediaSource options s)
        end
    end
  else
    (Fulfilled tt,
     playMediaSource (PlaySessionId playbackInfo) item mediaSource options s)
  end end end end end.

(** Modelled from the spec: [onStopPlayerBeforePlaybackDone] of
    [maincontroller.ts], which is missing.  By the spec [playItem] stops
    first when asked to and then negotiates the new item, which is what
    [playItemInternal] does. *)
Definition onStopPlayerBeforePlaybackDone (item : option BaseItemDto)
    (options : Options) (s : Sys) : Settled unit * Sys :=
  playItemInternal item options s.

Definition playItem (item : option BaseItemDto) (options : Options)
    (stopPlayer : bool) (s : Sys) : Settled unit * Sys :=
  let s := if stopPlayer then stop true s else s in
  onStopPlayerBeforePlaybackDone item options s.

(** The call of [playItem] is not awaited: the result is its own. *)
Definition playNextItem (options : Options) (stopPlayer : bool) (s : Sys)
    : bool * Sys :=
  match getNextPlaybackItemInfo env (window s) with
  | Some (index, item) =>
      let s := set_activePlaylistIndex index s in
      (true, snd (playItem (Some item) options stopPlayer s))
  | None => (false, s)
  end.

Definition playPreviousItem (options : Options) (s : Sys) : bool * Sys :=
  if 0 <? activePlaylistIndex (mgr s) then
    let s := set_activePlaylistIndex (activePlaylistIndex (mgr s) - 1) s in
    let item := activePlaylist (mgr s) !! Z.to_nat (activePlaylistIndex (mgr s)) in
    (true, snd (playItem item options true s))
  else (false, s).

Definition playFromOptionsInternal (options : Options) (s : Sys) : bool * Sys :=
  let stopPlayer := negb (length (activePlaylist (mgr s)) =? 0)%nat in
  let s := set_playlist (items options) (activePlaylistIndex (mgr s)) s in
  let s := mkSys (mgr s) (mkWindow (items options) (-1)) (page s) in
  playNextItem options stopPlayer s.

End WithEnv.

(** ** Runs of the receiver *)

(** The calls that reach the reporter: the cast framework's event handlers
    report start, progress and stop with a state and parameters of their own
    choosing, the browser runs the callback of an interval, the transport
    settles a request, and the manager stops or starts an item. *)
Inductive Op :=
  | OpReportStart (state : PlaybackState) (p : PlaybackProgressInfo)
  | OpReportProgress (state : PlaybackState) (p : PlaybackProgressInfo)
      (reportToServer : bool) (broadcastEventName : string) (now : Z)
  | OpReportStop (state : PlaybackState) (p : PlaybackProgressInfo)
  | OpTick (id now now' : Z)
  | OpSettled (ok : bool)
  | OpStopPingInterval
  | OpStop (env : Env) (continuing : bool)
  | OpPlayItem (env : Env) (item : option BaseItemDto) (options : Options)
      (stopPlayer : bool).

(** The reporter returns the promise of a request to its caller and attaches
    no continuation to it (the interval callback drops the promise of a
    ping), so no code of the reporter runs when a request settles, whether it
    succeeded or failed.  A negotiation is taken to its end in one step: the
    calls that come in at its awaits find the module variables and the
    intervals as the synchronous stop at its start left them, since the rest
    of the negotiation adds to the trace only ([page_playItemInternal]
    below), and the order of its own effects is the order of its body. *)
Definition step (op : Op) (s : Sys) : Sys :=
  match op with
  | OpReportStart state p => on_page (fun w => snd (reportPlaybackStart state p w)) s
  | OpReportProgress state p reportToServer name now =>
      on_page (fun w => snd (reportPlaybackProgress state p reportToServer name now w)) s
  | OpReportStop state p => on_page (fun w => snd (reportPlaybackStopped state p w)) s
  | OpTick id now now' => on_page (tick id now now') s
  | OpSettled _ => s
  | OpStopPingInterval => on_page stopPingInterval s
  | OpStop env continuing => stop env continuing s
  | OpPlayItem env item options stopPlayer => snd (playItem env item options stopPlayer s)
  end.

Definition run (ops : list Op) (s : Sys) : Sys :=
  fold_left (fun s op => step op s) ops s.

(** The receiver when the page has loaded. *)
Definition sys0 : Sys := mkSys newManager (mkWindow [] (-1)) world0.

(** *** What a trace shows *)

(** The events a call added to the trace. *)
Definition new_events (before after : World) : list Event :=
  drop (length (trace before)) (trace after).

Definition is_request (e : Event) : bool :=
  match e with AuthAjax _ _ _ => true | _ => false end.

Definition is_ping (e : Event) : bool :=
  match e with AuthAjax (SessionsPlayingPing _) _ _ => true | _ => false end.

Definition is_playbackInfo (e : Event) : bool :=
  match e with AuthAjax (ItemsPlaybackInfo _) _ _ => true | _ => false end.

(** The session ids of the stop reports among the events. *)
Definition stop_reports (tr : list Event) : list string :=
  omap (fun e => match e with
                 | AuthAjax SessionsPlayingStopped _ (ReportingParams p) =>
                     Some (rp_PlaySessionId p)
                 | _ => None
                 end) tr.

(** The events before the first request for playback info. *)
Fixpoint before_playbackInfo (tr : list Event) : list Event :=
  match tr with
  | [] => []
  | e :: tr' => if is_playbackInfo e then [] else e :: before_playbackInfo tr'
  end.

(** The readings of the clock, in order. *)
Definition clock_reads (tr : list Event) : list Z :=
  omap (fun e => match e with DateNow t => Some t | _ => None end) tr.

(** Reading a trace from its start: the latest reading of the clock, the
    reading under which the latest ping or progress report to the server was
    sent (0 before the first), and the readings under which the pings were
    sent. *)
Record Seen := mkSeen {
  seen_clock : Z;
  seen_checkin : Z;
  seen_pings : list Z
}.

Definition see (o : Seen) (e : Event) : Seen :=
  match e with
  | DateNow t => mkSeen t (seen_checkin o) (seen_pings o)
  | AuthAjax SessionsPlayingProgress _ _ =>
      mkSeen (seen_clock o) (seen_clock o) (seen_pings o)
  | AuthAjax (SessionsPlayingPing _) _ _ =>
      mkSeen (seen_clock o) (seen_clock o) (seen_pings o ++ [seen_clock o])
  | _ => o
  end.

Definition seen (tr : list Event) : Seen := fold_left see tr (mkSeen 0 0 []).

Definition last_checkin (tr : list Event) : Z := seen_checkin (seen tr).

Definition ping_times (tr : list Event) : list Z := seen_pings (seen tr).

(** *** The keep-alive timer *)

(** The handle in [pingInterval] names a live interval. *)
Definition timer_live (w : World) : bool :=
  match pingInterval w with
  | Some n => bool_decide (is_Some (timers w !! n))
  | None => false
  end.

(** What a call decides about the timer: [Some true] for a report that
    restarts it for a transcode, [Some false] for a report that carried
    another play method and for a stop, [None] for a call that leaves the
    timer alone. *)
Definition timer_verdict (op : Op) : option bool :=
  match op with
  | OpReportStart _ p => Some (is_Transcode (rp_PlayMethod p))
  | OpReportProgress _ p true _ _ => Some (is_Transcode (rp_PlayMethod p))
  | OpReportProgress _ _ false _ _ => None
  | OpReportStop _ _ | OpStopPingInterval | OpStop _ _ => Some false
  | OpPlayItem _ _ _ stopPlayer => if stopPlayer then Some false else None
  | OpTick _ _ _ | OpSettled _ => None
  end.

(** The verdict of the most recent call that has one; before the first such
    call no interval is expected. *)
Definition timer_expected (ops : list Op) : bool :=
  default false (last (omap timer_verdict ops)).

(** The reading of the specification: every progress report counts, also
    one that is not sent to the server. *)
Definition claimed_timer_verdict (op : Op) : option bool :=
  match op with
  | OpReportProgress _ p _ _ _ => Some (is_Transcode (rp_PlayMethod p))
  | _ => timer_verdict op
  end.

Definition claimed_timer_expected (ops : list Op) : bool :=
  default false (last (omap claimed_timer_verdict ops)).

(** At most the interval that [pingInterval] names is live, and handles are
    positive and below the next one. *)
Definition timers_ok (w : World) : Prop :=
  0 < nextTimer w ∧
  ((timers w = ∅ ∧ (pingInterval w = None ∨ pingInterval w = Some 0)) ∨
   (∃ n p, pingInterval w = Some n ∧ 0 < n < nextTimer w ∧ timers w = {[n := p]})).

(** No interval with a handle below [N] is live or will be handed out. *)
Definition retired (N : Z) (w : World) : Prop :=
  N ≤ nextTimer w ∧ ∀ id, id < N → timers w !! id = None.

(** *** The playlist *)




(** Modelled from the spec: [getNextPlaybackItemInfo] of [helpers.ts], which
    is missing.  The next index is the current one plus one, bounds-checked
    against the playlist; there is no next item past the end. *)
Definition getNextPlaybackItemInfo_spec (g : Window) : option (Z * BaseItemDto) :=
  let newIndex := currentPlaylistIndex g + 1 in
  if (0 <=? newIndex) && (newIndex <? Z.of_nat (length (playlist g)))
  then match playlist g !! Z.to_nat newIndex with
       | Some item => Some (newIndex, item)
       | None => None
       end
  else None.

(** *** The events of the calls *)

(** The events of [stopPingInterval] and of [restartPingInterval]. *)
Definition stop_events (w : World) : list Event :=
  if handle_set (pingInterval w) then [ClearInterval (pingInterval w)] else [].

Definition restart_events (p : PlaybackProgressInfo) (w : World) : list Event :=
  stop_events w ++
  (if is_Transcode (rp_PlayMethod p) then [SetInterval (nextTimer w) p 1000] else []).

(** A call that touches nothing of the page but the trace. *)
Definition append_events (l : list Event) (w : World) : World :=
  mkWorld (pingInterval w) (lastTranscoderPing w) (timers w) (nextTimer w)
          (trace w ++ l).

(** The events that neither read the clock nor check in with the server. *)
Definition silent (e : Event) : bool :=
  match e with
  | DateNow _ => false
  | AuthAjax SessionsPlayingProgress _ _ => false
  | AuthAjax (SessionsPlayingPing _) _ _ => false
  | _ => true
  end.

(** The events of a negotiation: calls of helpers and of the cast framework,
    and the two requests of the negotiator. *)
Definition negotiation_event (e : Event) : bool :=
  match e with
  | Call _ | ShowPlaybackInfoErrorMessage _ | CheckDirectPlay _ => true
  | AuthAjax (ItemsPlaybackInfo _) _ _ | AuthAjax LiveStreamsOpen _ _ => true
  | _ => false
  end.

(** The events of a negotiation up to and with the request that opens the
    live stream. *)
Definition negotiation_events (it : BaseItemDto) (options : Options)
    (maxBitrate : Z) (info : PlaybackInfoResponse) (src : MediaSourceInfo)
    : list Event :=
  [Call "DocumentManager.setAppStatus('loading')";
   Call "getMaxBitrate";
   Call "getDeviceProfile";
   AuthAjax (ItemsPlaybackInfo (Id it)) "POST"
     (PlaybackInfoQuery maxBitrate (default 0 (o_startPositionTicks options))
        (truthy (o_mediaSourceId options)) (o_audioStreamIndex options)
        (o_subtitleStreamIndex options) None);
   Call "getOptimalMediaSource";
   AuthAjax LiveStreamsOpen "POST"
     (LiveStreamQuery (Id it) (PlaySessionId info) maxBitrate
        (default 0 (o_startPositionTicks options)) (OpenToken src) None None)].

(** The events of [playMediaSource]. *)
Definition handoff_events : list Event :=
  [Call "DocumentManager.setAppStatus('loading')";
   Call "DocumentManager.setAppStatus('waiting')";
   Call "DocumentManager.setWaitingBackdrop";
   Call "DocumentManager.setLogo";
   Call "DocumentManager.setDetailImage";
   Call "DocumentManager.setAppStatus('backdrop')";
   Call "playerManager.load";
   Call "DocumentManager.setPlayerBackdrop";
   Call "playerManager.setMediaInformation"].

(** The playback state that [playMediaSource] publishes for a source. *)
Definition published (env : Env) (sid : string) (it : BaseItemDto)
    (src : MediaSourceInfo) (options : Options) (st : PlaybackState) : PlaybackState :=
  set_mediaSources src
    (loadPlaybackState
       (createCustomData env sid it src (o_startPositionTicks options)) it
       (resetPlaybackState st)).

Definition pingRequest (p : PlaybackProgressInfo) : Event :=
  AuthAjax (SessionsPlayingPing (rp_PlaySessionId p)) "POST"
    (PingData (rp_PlaySessionId p)).

(** *** The last-ping timestamp *)

(** What one call does to the trace and to the last-ping timestamp: nothing
    that concerns the ping, a progress report to the server, a tick that is
    skipped, or a tick that pings. *)
Inductive Effect (w w' : World) : Prop :=
  | effect_quiet l :
      trace w' = trace w ++ l → forallb silent l = true →
      lastTranscoderPing w' = lastTranscoderPing w → Effect w w'
  | effect_progress l now data :
      trace w' = trace w ++ l ++
                 [DateNow now; AuthAjax SessionsPlayingProgress "POST" data] →
      forallb silent l = true →
      lastTranscoderPing w' = now → Effect w w'
  | effect_skip now msg :
      trace w' = trace w ++ [DateNow now; ConsoleDebug msg] →
      now - lastTranscoderPing w < 5000 →
      lastTranscoderPing w' = lastTranscoderPing w → Effect w w'
  | effect_ping now now' sid data :
      trace w' = trace w ++
                 [DateNow now; DateNow now'; AuthAjax (SessionsPlayingPing sid) "POST" data] →
      5000 ≤ now - lastTranscoderPing w →
      lastTranscoderPing w' = now' → Effect w w'.

(** The timestamp is the reading under which the latest ping or progress
    report was sent. *)
Definition checkin_ok (w : World) : Prop :=
  lastTranscoderPing w = last_checkin (trace w).

(** Two pings are at least 5000 ms apart. *)
Definition spaced (a b : Z) : Prop := a + 5000 ≤ b.

(** The pings so far are spaced and not later than the timestamp, which is a
    reading of the clock once a ping was sent. *)
Definition pings_ok (w : World) : Prop :=
  StronglySorted spaced (ping_times (trace w)) ∧
  (∀ a, a ∈ ping_times (trace w) → a ≤ lastTranscoderPing w) ∧
  (ping_times (trace w) ≠ [] → lastTranscoderPing w ∈ clock_reads (trace w)).

(** *** Sample data for the examples *)

Definition transcodeParams : PlaybackProgressInfo :=
  mkProgressInfo (Some Transcode) "session-A" "item-A" 0.

Definition directPlayParams : PlaybackProgressInfo :=
  mkProgressInfo (Some DirectPlay) "session-A" "item-A" 0.

Definition progressAt (now : Z) : Op :=
  OpReportProgress initialPlaybackState transcodeParams true "playbackprogress" now.

(** Progress reports at 0 s and at 3 s that are both sent to the server,
    with a tick of the interval at 1 s in between. *)
Definition after_report_0 : Sys := run [progressAt 0] sys0.

Definition after_report_3 : Sys := run [OpTick 1 1000 1000; progressAt 3000] after_report_0.

Definition sampleItem : BaseItemDto := mkItem "item-B" (Some "Video").

Definition sampleSource : MediaSourceInfo := mkMediaSource "source-1" true "token-1" false.

Definition openedSource : MediaSourceInfo := mkMediaSource "source-1-live" false EmptyString true.

Definition sampleOptions : Options := mkOptions [sampleItem] None None None None.

(** The custom data of a one-hour item. *)
Definition sampleCustomData (sid : string) (it : BaseItemDto) (src : MediaSourceInfo)
    (start : option Z) : CustomData :=
  mkCustomData sid None None (default 0 start) true (Id it) EmptyString (ms_Id src)
    (Some (if SupportsDirectPlay src then DirectPlay else Transcode)) 36000000000.

(** A sample environment: the next item as the specification describes it,
    the first source offered, a server that answers every request. *)
Definition sampleEnv : Env :=
  {| getNextPlaybackItemInfo := getNextPlaybackItemInfo_spec;
     getMaxBitrate := Some 8000000;
     getOptimalMediaSource := head;
     checkDirectPlay := fun src => src;
     createCustomData := sampleCustomData;
     answerPlaybackInfo := fun _ => Some (mkPlaybackInfo None [sampleSource] "session-B");
     answerLiveStream := Some (mkLiveStream (Some openedSource));
     currentPositionTicks := 0 |}.

(** The receiver while it plays the sample item. *)
Definition playingSys : Sys :=
  snd (playItemInternal sampleEnv (Some sampleItem) sampleOptions sys0).

(** *** The entry point of a play request *)

(** A number in a condition: [undefined], [null] and 0 are false. *)
Definition truthy_number (o : option Z) : bool :=
  match o with
  | Some n => negb (n =? 0)
  | None => false
  end.

(** [playFromOptions(options)].  Both branches of its condition call
    [playFromOptionsInternal]; the condition reads [firstItem.MediaType]
    unless [options.startPositionTicks] is truthy, which throws when the list
    of items is empty, and the promise of the function is then rejected. *)
Definition playFromOptions (env : Env) (options : Options) (s : Sys)
    : Settled bool * Sys :=
  match head (items options) with
  | Some firstItem =>
      (Fulfilled (fst (playFromOptionsInternal env options s)),
       snd (playFromOptionsInternal env options s))
  | None =>
      if truthy_number (o_startPositionTicks options)
      then (Fulfilled (fst (playFromOptionsInternal env options s)),
            snd (playFromOptionsInternal env options s))
      else (Rejected "TypeError", s)
  end.

(** [Call "playerManager.load"]: the handoff to the player. *)
Definition is_load (e : Event) : bool :=
  match e with
  | Call callee => String.eqb callee "playerManager.load"
  | _ => false
  end.

Definition is_liveStreamOpen (e : Event) : bool :=
  match e with AuthAjax LiveStreamsOpen _ _ => true | _ => false end.

Definition is_checkDirectPlay (e : Event) : bool :=
  match e with CheckDirectPlay _ => true | _ => false end.

Definition playbackInfoRequest (it : BaseItemDto) (options : Options)
    (maxBitrate : Z) : Event :=
  AuthAjax (ItemsPlaybackInfo (Id it)) "POST"
    (PlaybackInfoQuery maxBitrate (default 0 (o_startPositionTicks options))
       (truthy (o_mediaSourceId options)) (o_audioStreamIndex options)
       (o_subtitleStreamIndex options) None).

(** The events of a negotiation up to and with the request for playback
    info. *)
Definition request_events (it : BaseItemDto) (options : Options) (maxBitrate : Z)
    : list Event :=
  [Call "DocumentManager.setAppStatus('loading')";
   Call "getMaxBitrate";
   Call "getDeviceProfile";
   playbackInfoRequest it options maxBitrate].


(** [Call "playerManager.stop"]: the player is asked to stop. *)
Definition is_playerStop (e : Event) : bool :=
  match e with
  | Call callee => String.eqb callee "playerManager.stop"
  | _ => false
  end.

(** *** The sizes the bitrate probe asks for *)

(** The sizes of the requests [Playback/BitrateTest?size=...] that
    [detectBitrate(numBytes)] sends, in order, within [fuel] calls: each call
    sends one request for its clamped argument and recurses as
    [detectBitrate] does. *)
Fixpoint detectBitrate_sizes (fuel : nat) (net : nat -> Probe) (numBytes : Z)
    : list Z :=
  match fuel with
  | O => []
  | S fuel' =>
      let numBytes := if byteLimit <? numBytes then byteLimit else numBytes in
      numBytes ::
      match net O with
      | Failed => []
      | Answered elapsed =>
          let bitrate := downloadSpeed numBytes elapsed in
          if quarter_lt bitrate numBytes || (byteLimit <=? numBytes)
          then []
          else detectBitrate_sizes fuel' (fun k => net (S k)) (numBytes * 2)
      end
  end.

(** Each size after the first is the double of the one before, or the limit
    when the double is above it. *)
Fixpoint doubling (l : list Z) : Prop :=
  match l with
  | a :: (b :: _) as rest => b = Z.min (2 * a) byteLimit ∧ doubling rest
  | _ => True
  end.

(** *** The parameters the live interval holds *)

(** The parameters that the callback of the interval [pingInterval] names
    closes over. *)
Definition timer_state (w : World) : option PlaybackProgressInfo :=
  match pingInterval w with
  | Some n => timers w !! n
  | None => None
  end.

(** What a call does to the interval: [Some (Some p)] for a report that
    starts one for the parameters [p], [Some None] for a call that leaves
    none, [None] for a call that leaves it alone. *)
Definition timer_capture (op : Op) : option (option PlaybackProgressInfo) :=
  match op with
  | OpReportStart _ p | OpReportProgress _ p true _ _ =>
      Some (if is_Transcode (rp_PlayMethod p) then Some p else None)
  | OpReportProgress _ _ false _ _ => None
  | OpReportStop _ _ | OpStopPingInterval | OpStop _ _ => Some None
  | OpPlayItem _ _ _ stopPlayer => if stopPlayer then Some None else None
  | OpTick _ _ _ | OpSettled _ => None
  end.

(** The parameters of the most recent report that started an interval, if no
    call has ended it since. *)
Definition timer_params (ops : list Op) : option PlaybackProgressInfo :=
  default None (last (omap timer_capture ops)).

(** *** The older manager ([src/components/playbackManager.ts]) *)

(** The variant of the manager whose [stop] only asks the player to stop and
    whose [onStopped] cleans up when the player has come to a halt.  Its
    [$scope.playNextItem] is the [playNextItemBool] of the playback state. *)
Module Legacy.

Definition stop (s : Sys) : Sys :=
  on_page (emit (Call "playerManager.stop")) s.


End Legacy.

(** *** A queue that replaced another *)






(** * Properties *)

(** ** Traces only grow *)

Lemma new_events_app w w' l :
  trace w' = trace w ++ l → new_events w w' = l.
Proof.
  intros H. unfold new_events. rewrite H. apply drop_app_length.
Qed.

Lemma trace_stopPingInterval w :
  trace (stopPingInterval w) = trace w ++ stop_events w.
Proof.
  unfold stopPingInterval, stop_events.
  destruct (handle_set (pingInterval w)); simpl; [done | by rewrite app_nil_r].
Qed.

Lemma nextTimer_stopPingInterval w :
  nextTimer (stopPingInterval w) = nextTimer w.
Proof. unfold stopPingInterval. by destruct (handle_set (pingInterval w)). Qed.

Lemma lastTranscoderPing_stopPingInterval w :
  lastTranscoderPing (stopPingInterval w) = lastTranscoderPing w.
Proof. unfold stopPingInterval. by destruct (handle_set (pingInterval w)). Qed.

Lemma trace_restartPingInterval p w :
  trace (restartPingInterval p w) = trace w ++ restart_events p w.
Proof.
  unfold restartPingInterval, restart_events.
  destruct (is_Transcode (rp_PlayMethod p)); simpl.
  - by rewrite trace_stopPingInterval, nextTimer_stopPingInterval, app_assoc.
  - by rewrite trace_stopPingInterval, app_nil_r.
Qed.

Lemma lastTranscoderPing_restartPingInterval p w :
  lastTranscoderPing (restartPingInterval p w) = lastTranscoderPing w.
Proof.
  unfold restartPingInterval.
  destruct (is_Transcode (rp_PlayMethod p)); simpl;
    apply lastTranscoderPing_stopPingInterval.
Qed.

(** ** The ping interval *)

Lemma append_events_nil w : append_events [] w = w.
Proof. destruct w. unfold append_events. simpl. by rewrite app_nil_r. Qed.

Lemma append_events_app l1 l2 w :
  append_events l2 (append_events l1 w) = append_events (l1 ++ l2) w.
Proof. unfold append_events. simpl. by rewrite app_assoc. Qed.

Lemma emit_append e w : emit e w = append_events [e] w.
Proof. reflexivity. Qed.

Lemma stopPingInterval_ok w :
  timers_ok w →
  stopPingInterval w =
    mkWorld (Some 0) (lastTranscoderPing w) ∅ (nextTimer w) (trace w ++ stop_events w).
Proof.
  intros [_ [[Ht [Hp | Hp]] | (n & p & Hp & Hn & Ht)]];
    unfold stopPingInterval, stop_events, clearInterval, emit, set_pingInterval;
    rewrite Hp; simpl.
  - by rewrite Ht.
  - destruct w; simpl in *. subst. by rewrite app_nil_r.
  - assert ((n =? 0) = false) as -> by lia. simpl.
    rewrite Ht. by rewrite delete_singleton_eq.
Qed.

Lemma restartPingInterval_ok p w :
  timers_ok w →
  restartPingInterval p w =
    if is_Transcode (rp_PlayMethod p)
    then mkWorld (Some (nextTimer w)) (lastTranscoderPing w) {[nextTimer w := p]}
           (nextTimer w + 1) (trace w ++ restart_events p w)
    else mkWorld (Some 0) (lastTranscoderPing w) ∅ (nextTimer w)
           (trace w ++ restart_events p w).
Proof.
  intros Hok. unfold restartPingInterval, restart_events.
  rewrite (stopPingInterval_ok _ Hok).
  destruct (is_Transcode (rp_PlayMethod p)); simpl.
  - unfold set_pingInterval, emit. simpl.
    by rewrite insert_empty, app_assoc.
  - by rewrite app_nil_r.
Qed.

Lemma timers_ok_append l w : timers_ok w → timers_ok (append_events l w).
Proof. done. Qed.

Lemma timers_ok_stopped last nt tr :
  0 < nt → timers_ok (mkWorld (Some 0) last ∅ nt tr).
Proof. intros. split; [done|]. left. simpl. auto. Qed.

Lemma timers_ok_started last nt p tr :
  0 < nt → timers_ok (mkWorld (Some nt) last {[nt := p]} (nt + 1) tr).
Proof.
  intros. split; [simpl; lia|]. right. exists nt, p. simpl.
  repeat split; lia.
Qed.

Lemma timers_ok_restartPingInterval p w :
  timers_ok w → timers_ok (restartPingInterval p w).
Proof.
  intros Hok. rewrite (restartPingInterval_ok _ _ Hok).
  destruct Hok as [Hnt _].
  destruct (is_Transcode (rp_PlayMethod p));
    [by apply timers_ok_started | by apply timers_ok_stopped].
Qed.

Lemma timer_live_append l w : timer_live (append_events l w) = timer_live w.
Proof. done. Qed.

Lemma timers_ok_emit e w : timers_ok w → timers_ok (emit e w).
Proof. done. Qed.

Lemma timer_live_emit e w : timer_live (emit e w) = timer_live w.
Proof. done. Qed.

(** Whatever else the page holds, with no interval in the table none is live. *)
Lemma timer_live_stopped h last nt tr : timer_live (mkWorld h last ∅ nt tr) = false.
Proof.
  unfold timer_live. simpl. destruct h; [|done].
  rewrite lookup_empty. apply bool_decide_eq_false. by intros [? ?].
Qed.

Lemma timer_live_restartPingInterval p w :
  timers_ok w →
  timer_live (restartPingInterval p w) = is_Transcode (rp_PlayMethod p).
Proof.
  intros Hok. rewrite (restartPingInterval_ok _ _ Hok).
  destruct (is_Transcode (rp_PlayMethod p)); unfold timer_live; simpl.
  - rewrite lookup_singleton_eq. by apply bool_decide_eq_true.
  - rewrite lookup_empty. apply bool_decide_eq_false. by intros [? ?].
Qed.

Lemma timer_live_stopPingInterval w :
  timers_ok w → timer_live (stopPingInterval w) = false.
Proof.
  intros Hok. rewrite (stopPingInterval_ok _ Hok). unfold timer_live. simpl.
  rewrite lookup_empty. apply bool_decide_eq_false. by intros [? ?].
Qed.

(** ** What the manager does to the page *)

Lemma page_on_page f s : page (on_page f s) = f (page s).
Proof. reflexivity. Qed.

Lemma page_on_state f s : page (on_state f s) = page s.
Proof. reflexivity. Qed.

Lemma page_set_playlist l i s : page (set_playlist l i s) = page s.
Proof. reflexivity. Qed.

Lemma mgr_on_page f s : mgr (on_page f s) = mgr s.
Proof. reflexivity. Qed.

Lemma playbackState_on_state f s :
  playbackState (mgr (on_state f s)) = f (playbackState (mgr s)).
Proof. reflexivity. Qed.

Lemma emit_append_events e l w :
  emit e (append_events l w) = append_events (l ++ [e]) w.
Proof. by rewrite emit_append, append_events_app. Qed.

(** Brings the page of a state that calls have built from [s] into the form
    [append_events l (page s)]. *)
Ltac page_of_calls :=
  cbv zeta;
  repeat (rewrite ?page_on_page, ?page_on_state, ?page_set_playlist);
  rewrite ?emit_append; rewrite ?append_events_app;
  cbn [app].

Lemma page_resetPlaybackScope s :
  page (resetPlaybackScope s) =
    append_events
      [Call "DocumentManager.setAppStatus('waiting')";
       Call "DocumentManager.setWaitingBackdrop";
       Call "DocumentManager.setLogo";
       Call "DocumentManager.setDetailImage"] (page s).
Proof.
  unfold resetPlaybackScope. by page_of_calls.
Qed.

Lemma page_load customData it s :
  page (load customData it s) =
    append_events
      [Call "DocumentManager.setAppStatus('waiting')";
       Call "DocumentManager.setWaitingBackdrop";
       Call "DocumentManager.setLogo";
       Call "DocumentManager.setDetailImage";
       Call "DocumentManager.setAppStatus('backdrop')"] (page s).
Proof.
  unfold load. cbv zeta. rewrite page_on_state, page_on_page, page_resetPlaybackScope.
  by rewrite emit_append_events.
Qed.

Lemma page_playMediaSource env sid it src options s :
  page (playMediaSource env sid it src options s) =
    append_events handoff_events (page s).
Proof.
  unfold playMediaSource. cbv zeta.
  rewrite !page_on_page, page_on_state, page_on_page, page_load, page_on_page.
  by rewrite ?emit_append, ?append_events_app.
Qed.

Lemma negotiation_handoff : forallb negotiation_event handoff_events = true.
Proof. reflexivity. Qed.

Lemma page_playItemInternal env item options s :
  ∃ l, page (snd (playItemInternal env item options s)) = append_events l (page s)
       ∧ forallb negotiation_event l = true.
Proof.
  unfold playItemInternal, getPlaybackInfo, getLiveStream. cbv zeta.
  repeat case_match; cbn [snd]; rewrite ?page_playMediaSource;
    page_of_calls; (eexists; split; [reflexivity | reflexivity]).
Qed.

Lemma page_stop env continuing s :
  timers_ok (page s) →
  page (stop env continuing s) =
    mkWorld (Some 0) (lastTranscoderPing (page s)) ∅ (nextTimer (page s))
      (trace (page s) ++ stop_events (page s) ++
       [Broadcast "playbackstop"
          (set_playNextItemBool continuing (playbackState (mgr s)))
          (getReportingParams (currentPositionTicks env)
             (set_playNextItemBool continuing (playbackState (mgr s))));
        AuthAjax SessionsPlayingStopped "POST"
          (ReportingParams
             (getReportingParams (currentPositionTicks env)
                (set_playNextItemBool continuing (playbackState (mgr s)))));
        Call "playerManager.stop";
        Call "DocumentManager.startBackdropInterval"]).
Proof.
  intros Hok.
  unfold stop, jellyfinActions_stop, reportPlaybackStopped.
  cbn [on_page on_state set_playlist page mgr playbackState snd].
  rewrite (stopPingInterval_ok _ Hok).
  unfold stopPingInterval, emit. cbn.
  by rewrite <- !app_assoc.
Qed.

Lemma pingTranscoder_fields p now now' w :
  let w' := snd (pingTranscoder p now now' w) in
  pingInterval w' = pingInterval w ∧ timers w' = timers w ∧
  nextTimer w' = nextTimer w.
Proof.
  unfold pingTranscoder. cbn [emit lastTranscoderPing].
  by destruct (now - lastTranscoderPing w <? 5000).
Qed.

Lemma tick_fields id now now' w :
  pingInterval (tick id now now' w) = pingInterval w ∧
  timers (tick id now now' w) = timers w ∧
  nextTimer (tick id now now' w) = nextTimer w.
Proof.
  unfold tick. destruct (timers w !! id); [apply pingTranscoder_fields | done].
Qed.

Lemma timers_ok_fields w w' :
  pingInterval w' = pingInterval w → timers w' = timers w →
  nextTimer w' = nextTimer w → timers_ok w → timers_ok w'.
Proof. unfold timers_ok. intros -> -> ->. done. Qed.

Lemma timer_live_fields w w' :
  pingInterval w' = pingInterval w → timers w' = timers w →
  timer_live w' = timer_live w.
Proof. unfold timer_live. intros -> ->. done. Qed.

(** One call: the invariant of the intervals is kept, and the handle is live
    afterwards as the verdict of the call says. *)
Lemma step_timers op s :
  timers_ok (page s) →
  timers_ok (page (step op s)) ∧
  timer_live (page (step op s)) = default (timer_live (page s)) (timer_verdict op).
Proof.
  intros Hok.
  destruct op as [st p | st p [] name now | st p | id now now' | ok | | env c
                 | env it options []];
    cbn [step on_page page timer_verdict default].
  - unfold reportPlaybackStart. cbn [snd]. split.
    + apply timers_ok_emit. by apply timers_ok_restartPingInterval.
    + rewrite timer_live_emit. by apply timer_live_restartPingInterval.
  - unfold reportPlaybackProgress. cbn [negb snd]. split.
    + apply timers_ok_emit.
      apply (timers_ok_fields (restartPingInterval p (emit (Broadcast name st p) (page s))));
        try done.
      by apply timers_ok_restartPingInterval.
    + rewrite timer_live_emit.
      rewrite (timer_live_fields
                 (restartPingInterval p (emit (Broadcast name st p) (page s)))) by done.
      by apply timer_live_restartPingInterval.
  - unfold reportPlaybackProgress. cbn [negb snd]. done.
  - unfold reportPlaybackStopped. cbn [snd]. rewrite (stopPingInterval_ok _ Hok).
    split.
    + apply timers_ok_stopped, Hok.
    + by apply timer_live_stopped.
  - destruct (tick_fields id now now' (page s)) as (Hp & Ht & Hn). split.
    + by apply (timers_ok_fields (page s)).
    + by apply timer_live_fields.
  - done.
  - rewrite (stopPingInterval_ok _ Hok). split.
    + apply timers_ok_stopped, Hok.
    + by apply timer_live_stopped.
  - rewrite (page_stop _ _ _ Hok). split.
    + apply timers_ok_stopped, Hok.
    + by apply timer_live_stopped.
  - unfold playItem, onStopPlayerBeforePlaybackDone.
    destruct (page_playItemInternal env it options (stop env true s)) as (l & -> & _).
    rewrite (page_stop _ _ _ Hok). split.
    + apply timers_ok_stopped, Hok.
    + by apply timer_live_stopped.
  - unfold playItem, onStopPlayerBeforePlaybackDone.
    destruct (page_playItemInternal env it options s) as (l & -> & _).
    split; [by apply timers_ok_append | done].
Qed.

Lemma timers_ok_world0 : timers_ok world0.
Proof. split; [done|]. left. auto. Qed.

Lemma run_snoc ops op s : run (ops ++ [op]) s = step op (run ops s).
Proof. unfold run. by rewrite fold_left_app. Qed.

Lemma run_app ops ops' s : run (ops ++ ops') s = run ops' (run ops s).
Proof. unfold run. by rewrite fold_left_app. Qed.

Lemma timers_ok_run ops s : timers_ok (page s) → timers_ok (page (run ops s)).
Proof.
  revert s. induction ops as [|op ops IH]; intros s Hok; [done|].
  apply IH. by apply step_timers.
Qed.

Lemma timer_live_run ops s :
  timers_ok (page s) →
  timer_live (page (run ops s)) =
    fold_left (fun acc op => default acc (timer_verdict op)) ops (timer_live (page s)).
Proof.
  revert s. induction ops as [|op ops IH]; intros s Hok; [done|].
  destruct (step_timers op s Hok) as [Hok' Hlive].
  cbn [run fold_left]. rewrite <- Hlive. by apply IH.
Qed.

Lemma fold_verdict (verdict : Op → option bool) ops acc :
  fold_left (fun acc op => default acc (verdict op)) ops acc =
    default acc (last (omap verdict ops)).
Proof.
  revert acc. induction ops as [|op ops IH]; intros acc; [done|].
  cbn [fold_left omap list_omap]. rewrite IH.
  destruct (verdict op) as [b|]; [|done].
  rewrite last_cons. by destruct (last (omap verdict ops)).
Qed.

Lemma timers_at_most_one w : timers_ok w → (size (timers w) ≤ 1)%nat.
Proof.
  intros [_ [[-> _] | (n & p & _ & _ & ->)]].
  - rewrite map_size_empty. lia.
  - by rewrite map_size_singleton.
Qed.

(** ** C8: local and server progress reports *)

(** C8.  [reportPlaybackProgress] always broadcasts the progress event
    locally, as its first effect.  With [reportToServer] false the promise it
    returns is already resolved and nothing else happens: no request, the
    intervals, the handle and the last-ping timestamp are as before.  With
    [reportToServer] true it restarts the ping interval, then sets the
    last-ping timestamp to the current time, then posts the progress report.
    The restart is spelled out: [pingInterval] holds the fresh handle when
    the report carries a transcode and 0 otherwise, the browser's next handle
    moves on by one for a transcode, the interval that [pingInterval] named
    before is cleared, and for a transcode the fresh interval closes over the
    parameters of this report.  In every state the receiver reaches the
    intervals afterwards are that fresh one alone, or none, and a tick of the
    fresh interval runs [pingTranscoder] with the parameters of the report. *)
Theorem C8_reportPlaybackProgress st p name now w ops :
  let local := reportPlaybackProgress st p false name now w in
  let server := reportPlaybackProgress st p true name now w in
  let transcode := is_Transcode (rp_PlayMethod p) in
  (∀ reportToServer, ∃ rest,
     new_events w (snd (reportPlaybackProgress st p reportToServer name now w)) =
       Broadcast name st p :: rest) ∧
  (fst local = Resolved ∧
   snd local = emit (Broadcast name st p) w ∧
   new_events w (snd local) = [Broadcast name st p] ∧
   filter is_request (new_events w (snd local)) = [] ∧
   timers (snd local) = timers w ∧
   pingInterval (snd local) = pingInterval w ∧
   nextTimer (snd local) = nextTimer w ∧
   lastTranscoderPing (snd local) = lastTranscoderPing w) ∧
  (fst server = Pending ∧
   new_events w (snd server) =
     Broadcast name st p :: restart_events p w ++
     [DateNow now; AuthAjax SessionsPlayingProgress "POST" (ReportingParams p)] ∧
   timers (snd server) = timers (restartPingInterval p w) ∧
   pingInterval (snd server) = pingInterval (restartPingInterval p w) ∧
   nextTimer (snd server) = nextTimer (restartPingInterval p w) ∧
   lastTranscoderPing (snd server) = now ∧
   pingInterval (snd server) = Some (if transcode then nextTimer w else 0) ∧
   nextTimer (snd server) = (if transcode then nextTimer w + 1 else nextTimer w) ∧
   timers (snd server) =
     (let cleared :=
        match pingInterval w with
        | Some n => if n =? 0 then timers w else delete n (timers w)
        | None => timers w
        end in
      if transcode then <[nextTimer w := p]> cleared else cleared)) ∧
  (let w := page (run ops sys0) in
   let server := reportPlaybackProgress st p true name now w in
   timers (snd server) = (if transcode then {[nextTimer w := p]} else ∅) ∧
   timer_live (snd server) = transcode ∧
   (∀ t t', transcode = true →
      tick (nextTimer w) t t' (snd server) = snd (pingTranscoder p t t' (snd server)))).
Proof.
  assert (new_events w (snd (reportPlaybackProgress st p true name now w)) =
          Broadcast name st p :: restart_events p w ++
          [DateNow now; AuthAjax SessionsPlayingProgress "POST" (ReportingParams p)])
    as Hserver.
  { apply new_events_app. unfold reportPlaybackProgress.
    cbn [negb snd emit trace set_lastTranscoderPing].
    rewrite trace_restartPingInterval. cbn [emit trace].
    rewrite <- !app_assoc. reflexivity. }
  assert (new_events w (snd (reportPlaybackProgress st p false name now w)) =
          [Broadcast name st p]) as Hlocal by by apply new_events_app.
  cbn zeta. split; [|split; [|split]].
  - intros []; eauto.
  - rewrite Hlocal. done.
  - split; [done|]. split; [exact Hserver|].
    unfold reportPlaybackProgress.
    cbn [negb snd emit set_lastTranscoderPing timers pingInterval nextTimer
         lastTranscoderPing].
    unfold restartPingInterval, stopPingInterval, handle_set.
    cbn [emit pingInterval].
    destruct (is_Transcode (rp_PlayMethod p));
      destruct (pingInterval w) as [n|] eqn:Hn; [destruct (n =? 0) eqn:E| |destruct (n =? 0) eqn:E|];
      cbn [negb setInterval clearInterval emit set_pingInterval timers pingInterval
           nextTimer lastTranscoderPing];
      rewrite ?Hn; repeat split; try reflexivity;
      apply Z.eqb_eq in E; by rewrite E.
  - assert (timers_ok (page (run ops sys0))) as Hok
      by apply timers_ok_run, timers_ok_world0.
    set (w1 := page (run ops sys0)) in *.
    assert (timers_ok (emit (Broadcast name st p) w1)) as Hok1 by exact Hok.
    unfold reportPlaybackProgress. cbn [negb snd].
    assert (∀ e t x, timers (emit e (set_lastTranscoderPing t (emit (DateNow t) x))) = timers x)
      as Ht by reflexivity.
    assert (∀ e t x, timer_live (emit e (set_lastTranscoderPing t (emit (DateNow t) x))) =
                     timer_live x) as Hl by reflexivity.
    split; [|split].
    + rewrite Ht, (restartPingInterval_ok _ _ Hok1).
      by destruct (is_Transcode (rp_PlayMethod p)).
    + by rewrite Hl, (timer_live_restartPingInterval _ _ Hok1).
    + intros t t' Htr. unfold tick. rewrite Ht, (restartPingInterval_ok _ _ Hok1), Htr.
      cbn [timers emit nextTimer]. by rewrite lookup_singleton_eq.
Qed.

(** ** C2: the keep-alive timer *)

(** C2, as the specification words it, fails in both directions.  After a
    start report of a transcode, a progress report that is not sent to the
    server and carries direct play is the most recent report, and the
    interval is still live.  On a fresh page, a progress report that is not
    sent to the server and carries a transcode is the most recent report, no
    stop has come after it, and no interval is live. *)
Lemma C2_counterexample :
  let still_live := [OpReportStart initialPlaybackState transcodeParams;
                     OpReportProgress initialPlaybackState directPlayParams false
                       "playbackprogress" 0] in
  let never_started := [OpReportProgress initialPlaybackState transcodeParams false
                          "playbackprogress" 0] in
  (timer_live (page (run still_live sys0)) = true ∧
   claimed_timer_expected still_live = false) ∧
  (timer_live (page (run never_started sys0)) = false ∧
   claimed_timer_expected never_started = true).
Proof.
  cbn zeta. rewrite !timer_live_run by apply timers_ok_world0. done.
Qed.

(** C2, amended.  In every state the receiver reaches, the handle in
    [pingInterval] names a live interval if and only if the most recent call
    among the start reports, the progress reports that are sent to the server
    and the stops was a report that carried the play method Transcode; a
    progress report that is not sent to the server leaves the timer as it is.
    [restartPingInterval] clears the interval that is live before it sets a
    new one, so that only the new one is live; the stop report and the
    manager's stop leave no interval live; at most one interval is ever live. *)
Theorem C2_ping_timer ops :
  let s := run ops sys0 in
  let w := page s in
  timer_live w = timer_expected ops ∧
  (size (timers w) ≤ 1)%nat ∧
  (∀ p, trace (restartPingInterval p w) =
          trace w ++ stop_events w ++
          (if is_Transcode (rp_PlayMethod p) then [SetInterval (nextTimer w) p 1000] else [])
        ∧ (timer_live w = true → stop_events w = [ClearInterval (pingInterval w)])
        ∧ timers (restartPingInterval p w) =
            if is_Transcode (rp_PlayMethod p) then {[nextTimer w := p]} else ∅) ∧
  (∀ st p, timers (snd (reportPlaybackStopped st p w)) = ∅) ∧
  (∀ env continuing, timers (page (stop env continuing s)) = ∅).
Proof.
  intros s w.
  assert (timers_ok w) as Hok by apply timers_ok_run, timers_ok_world0.
  split; [|split; [|split; [|split]]].
  - unfold w, s. rewrite timer_live_run by apply timers_ok_world0.
    apply fold_verdict.
  - by apply timers_at_most_one.
  - intros p. split; [apply trace_restartPingInterval|]. split.
    + unfold timer_live, stop_events.
      destruct Hok as [_ [[Ht [Hp | Hp]] | (n & q & Hp & Hn & Ht)]]; rewrite Hp.
      * done.
      * rewrite Ht, lookup_empty. intros H. apply bool_decide_eq_true in H.
        by destruct H.
      * intros _. simpl. by assert ((n =? 0) = false) as -> by lia.
    + rewrite (restartPingInterval_ok _ _ Hok).
      by destruct (is_Transcode (rp_PlayMethod p)).
  - intros st p. unfold reportPlaybackStopped. cbn [snd emit timers].
    by rewrite (stopPingInterval_ok _ Hok).
  - intros env c. by rewrite (page_stop _ _ _ Hok).
Qed.

Lemma C2_witness :
  let w := page (run [OpReportStart initialPlaybackState transcodeParams] sys0) in
  timer_live w = true ∧ stop_events w = [ClearInterval (pingInterval w)].
Proof.
  assert (timer_live
            (page (run [OpReportStart initialPlaybackState transcodeParams] sys0)) = true)
    as Hlive by by vm_compute.
  split; [exact Hlive|].
  destruct (C2_ping_timer [OpReportStart initialPlaybackState transcodeParams])
    as (_ & _ & Hrestart & _).
  destruct (Hrestart transcodeParams) as (_ & Hclear & _).
  exact (Hclear Hlive).
Defined.

(** ** The last-ping timestamp *)

Lemma seen_app tr l : seen (tr ++ l) = fold_left see l (seen tr).
Proof. unfold seen. by rewrite fold_left_app. Qed.

Lemma see_silent l o : forallb silent l = true → fold_left see l o = o.
Proof.
  revert o. induction l as [|e l IH]; intros o H; [done|].
  simpl in H. apply andb_true_iff in H as [He Hl]. simpl.
  rewrite <- (IH o Hl) at 2. f_equal.
  destruct e as [ | [] | | | | | | | ]; done.
Qed.

Lemma clock_reads_silent l : forallb silent l = true → clock_reads l = [].
Proof.
  induction l as [|e l IH]; intros H; [done|].
  simpl in H. apply andb_true_iff in H as [He Hl].
  unfold clock_reads in *. simpl. destruct e; try done; by apply IH.
Qed.

Lemma clock_reads_app tr l : clock_reads (tr ++ l) = clock_reads tr ++ clock_reads l.
Proof. apply omap_app. Qed.

Lemma negotiation_silent l :
  forallb negotiation_event l = true → forallb silent l = true.
Proof.
  induction l as [|e l IH]; intros H; [done|].
  simpl in H. apply andb_true_iff in H as [He Hl]. simpl.
  rewrite (IH Hl), andb_true_r.
  destruct e as [ | [] | | | | | | | ]; done.
Qed.

Lemma silent_app l1 l2 :
  forallb silent l1 = true → forallb silent l2 = true →
  forallb silent (l1 ++ l2) = true.
Proof. intros H1 H2. by rewrite forallb_app, H1, H2. Qed.

Lemma silent_stop_events w : forallb silent (stop_events w) = true.
Proof. unfold stop_events. by destruct (handle_set (pingInterval w)). Qed.

Lemma silent_restart_events p w : forallb silent (restart_events p w) = true.
Proof.
  unfold restart_events. apply silent_app; [apply silent_stop_events|].
  by destruct (is_Transcode (rp_PlayMethod p)).
Qed.

Lemma effect_refl w : Effect w w.
Proof. apply (effect_quiet w w []); [by rewrite app_nil_r | done | done]. Qed.

Lemma effect_pingTranscoder p now now' w :
  Effect w (snd (pingTranscoder p now now' w)).
Proof.
  unfold pingTranscoder. cbn [emit lastTranscoderPing].
  destruct (now - lastTranscoderPing w <? 5000) eqn:E; cbn [snd].
  - apply (effect_skip _ _ now "Skipping ping due to recent progress check-in");
      [|by apply Z.ltb_lt|done].
    cbn [emit trace]. by rewrite <- app_assoc.
  - apply (effect_ping _ _ now now' (rp_PlaySessionId p)
             (PingData (rp_PlaySessionId p))); [|by apply Z.ltb_ge in E; lia|done].
    cbn [emit trace set_lastTranscoderPing]. by rewrite <- !app_assoc.
Qed.

(** Every call has one of the four effects. *)
Lemma step_effect op s :
  timers_ok (page s) → Effect (page s) (page (step op s)).
Proof.
  intros Hok.
  destruct op as [st p | st p [] name now | st p | id now now' | ok | | env c
                 | env it options []];
    cbn [step on_page page].
  - unfold reportPlaybackStart. cbn [snd].
    apply (effect_quiet _ _
             ([Call "DocumentManager.clearBackdropInterval";
               Broadcast "playbackstart" st p] ++
              restart_events p (page s) ++
              [AuthAjax SessionsPlaying "POST" (ReportingParams p)])).
    + cbn [emit trace]. rewrite trace_restartPingInterval. cbn [emit trace].
      rewrite <- !app_assoc. reflexivity.
    + apply silent_app; [done|]. apply silent_app; [|done].
      apply silent_restart_events.
    + cbn [emit lastTranscoderPing].
      by rewrite lastTranscoderPing_restartPingInterval.
  - unfold reportPlaybackProgress. cbn [negb snd].
    apply (effect_progress _ _ ([Broadcast name st p] ++ restart_events p (page s))
             now (ReportingParams p)).
    + cbn [emit trace set_lastTranscoderPing].
      rewrite trace_restartPingInterval. cbn [emit trace].
      rewrite <- !app_assoc. reflexivity.
    + apply silent_app; [done|]. apply silent_restart_events.
    + done.
  - unfold reportPlaybackProgress. cbn [negb snd].
    by apply (effect_quiet _ _ [Broadcast name st p]).
  - unfold reportPlaybackStopped. cbn [snd].
    apply (effect_quiet _ _
             (stop_events (page s) ++
              [Broadcast "playbackstop" st p;
               AuthAjax SessionsPlayingStopped "POST" (ReportingParams p)])).
    + cbn [emit trace]. rewrite trace_stopPingInterval.
      rewrite <- !app_assoc. reflexivity.
    + apply silent_app; [apply silent_stop_events | done].
    + cbn [emit lastTranscoderPing]. apply lastTranscoderPing_stopPingInterval.
  - unfold tick. destruct (timers (page s) !! id);
      [apply effect_pingTranscoder | apply effect_refl].
  - apply effect_refl.
  - apply (effect_quiet _ _ (stop_events (page s)));
      [apply trace_stopPingInterval | apply silent_stop_events
      | apply lastTranscoderPing_stopPingInterval].
  - rewrite (page_stop _ _ _ Hok).
    eapply effect_quiet; [reflexivity| |done].
    apply silent_app; [apply silent_stop_events | done].
  - unfold playItem, onStopPlayerBeforePlaybackDone.
    destruct (page_playItemInternal env it options (stop env true s)) as (l & -> & Hl).
    rewrite (page_stop _ _ _ Hok).
    eapply effect_quiet; [cbn [append_events trace]; by rewrite <- app_assoc| |done].
    apply silent_app; [apply silent_app; [apply silent_stop_events | done]|].
    by apply negotiation_silent.
  - unfold playItem, onStopPlayerBeforePlaybackDone.
    destruct (page_playItemInternal env it options s) as (l & -> & Hl).
    eapply effect_quiet; [reflexivity|by apply negotiation_silent|done].
Qed.

Lemma effect_checkin w w' : Effect w w' → checkin_ok w → checkin_ok w'.
Proof.
  unfold checkin_ok, last_checkin.
  intros [l Ht Hl Hp | l now data Ht Hl Hp | now msg Ht Hlt Hp
         | now now' sid data Ht Hge Hp] Hw; rewrite Ht, Hp.
  - by rewrite seen_app, see_silent.
  - rewrite app_assoc, seen_app, seen_app. rewrite (see_silent l) by exact Hl. reflexivity.
  - rewrite seen_app. exact Hw.
  - rewrite seen_app. reflexivity.
Qed.

Lemma checkin_ok_run ops s :
  timers_ok (page s) → checkin_ok (page s) → checkin_ok (page (run ops s)).
Proof.
  revert s. induction ops as [|op ops IH]; intros s Hok Hc; [done|].
  apply IH; [by apply step_timers|].
  eapply effect_checkin; [by apply step_effect | done].
Qed.

Lemma effect_trace w w' : Effect w w' → ∃ l, trace w' = trace w ++ l.
Proof. intros [l Ht _ _ | l now data Ht _ _ | now msg Ht _ _ | now now' sid data Ht _ _]; eauto. Qed.

Lemma effect_pings w w' :
  Effect w w' → StronglySorted Z.le (clock_reads (trace w')) →
  pings_ok w → pings_ok w'.
Proof.
  unfold pings_ok, ping_times.
  intros [l Ht Hl Hp | l now data Ht Hl Hp | now msg Ht Hlt Hp
         | now now' sid data Ht Hge Hp]; rewrite Ht, Hp; intros Hmono (Hs & Hle & Hin).
  - rewrite seen_app, (see_silent l) by exact Hl.
    rewrite clock_reads_app, (clock_reads_silent l), app_nil_r by exact Hl.
    done.
  - rewrite app_assoc, seen_app, seen_app, (see_silent l) by exact Hl.
    rewrite app_assoc in Hmono.
    rewrite !clock_reads_app, (clock_reads_silent l), app_nil_r in Hmono |- * by exact Hl.
    cbn in Hmono |- *. split; [done|]. split.
    + intros a Ha. specialize (Hle a Ha).
      assert (lastTranscoderPing w ≤ now); [|lia].
      eapply (StronglySorted_app_1_elem_of Z.le); [exact Hmono| |by left].
      apply Hin. intros E. rewrite E in Ha. by apply elem_of_nil in Ha.
    + intros _. apply elem_of_app. right. by left.
  - rewrite seen_app. rewrite clock_reads_app in Hmono |- *.
    cbn in Hmono |- *. split; [done|]. split; [done|].
    intros Hne. apply elem_of_app. left. by apply Hin.
  - rewrite seen_app. rewrite clock_reads_app in Hmono |- *.
    cbn in Hmono |- *.
    assert (now ≤ now') as Hnow.
    { apply StronglySorted_app_1_r in Hmono. inv Hmono.
      match goal with H : Forall _ [_] |- _ => by inv H end. }
    split; [|split].
    + apply StronglySorted_app_2; [|done|repeat constructor].
      intros a b Ha Hb. apply list_elem_of_singleton in Hb as ->.
      specialize (Hle a Ha). unfold spaced. lia.
    + intros a Ha. apply elem_of_app in Ha as [Ha | Ha].
      * specialize (Hle a Ha). lia.
      * apply list_elem_of_singleton in Ha as ->. lia.
    + intros _. apply elem_of_app. right. right. by left.
Qed.

Lemma pings_ok_world0 : pings_ok world0.
Proof. split; [constructor|]. split; [intros a Ha; by apply elem_of_nil in Ha | done]. Qed.

Lemma pings_ok_run ops s :
  timers_ok (page s) → pings_ok (page s) →
  StronglySorted Z.le (clock_reads (trace (page (run ops s)))) →
  pings_ok (page (run ops s)).
Proof.
  intros Hok Hp. induction ops as [|op ops IH] using rev_ind; [done|].
  rewrite run_snoc. intros Hmono.
  assert (Effect (page (run ops s)) (page (step op (run ops s)))) as He
    by by apply step_effect, timers_ok_run.
  eapply effect_pings; [exact He | exact Hmono |].
  apply IH. destruct (effect_trace _ _ He) as [l Hl].
  rewrite Hl, clock_reads_app in Hmono.
  by apply StronglySorted_app_1_l in Hmono.
Qed.

(** ** Handles are never handed out twice *)

(** One call leaves the intervals as they are, clears them all, or leaves
    exactly one new interval live, under the next handle. *)
Lemma restartPingInterval_shape p w :
  timers_ok w →
  let w' := restartPingInterval p w in
  (timers w' = ∅ ∧ nextTimer w' = nextTimer w) ∨
  (∃ q, timers w' = {[nextTimer w := q]} ∧ nextTimer w' = nextTimer w + 1).
Proof.
  intros Hok. cbn zeta. rewrite (restartPingInterval_ok _ _ Hok).
  destruct (is_Transcode (rp_PlayMethod p)); [right; by exists p | by left].
Qed.

Lemma step_timers_shape op s :
  timers_ok (page s) →
  let w := page s in
  let w' := page (step op s) in
  (timers w' = timers w ∧ nextTimer w' = nextTimer w) ∨
  (timers w' = ∅ ∧ nextTimer w' = nextTimer w) ∨
  (∃ p, timers w' = {[nextTimer w := p]} ∧ nextTimer w' = nextTimer w + 1).
Proof.
  intros Hok.
  destruct op as [st p | st p [] name now | st p | id now now' | ok | | env c
                 | env it options []];
    cbn [step on_page page].
  - unfold reportPlaybackStart. cbn [snd emit timers nextTimer].
    right.
    exact (restartPingInterval_shape p
             (emit (Broadcast "playbackstart" st p)
                (emit (Call "DocumentManager.clearBackdropInterval") (page s))) Hok).
  - unfold reportPlaybackProgress.
    cbn [negb snd emit set_lastTranscoderPing timers nextTimer].
    right.
    exact (restartPingInterval_shape p (emit (Broadcast name st p) (page s)) Hok).
  - by left.
  - right. left. unfold reportPlaybackStopped. cbn [snd emit timers nextTimer].
    by rewrite (stopPingInterval_ok _ Hok).
  - left. destruct (tick_fields id now now' (page s)) as (_ & Ht & Hn). done.
  - by left.
  - right. left. by rewrite (stopPingInterval_ok _ Hok).
  - right. left. by rewrite (page_stop _ _ _ Hok).
  - right. left. unfold playItem, onStopPlayerBeforePlaybackDone.
    destruct (page_playItemInternal env it options (stop env true s)) as (l & -> & _).
    by rewrite (page_stop _ _ _ Hok).
  - left. unfold playItem, onStopPlayerBeforePlaybackDone.
    by destruct (page_playItemInternal env it options s) as (l & -> & _).
Qed.

Lemma step_retired N op s :
  timers_ok (page s) → retired N (page s) → retired N (page (step op s)).
Proof.
  intros Hok [HN Hfree].
  destruct (step_timers_shape op s Hok) as [[Ht Hn] | [[Ht Hn] | (p & Ht & Hn)]];
    split; try lia; intros id Hid; rewrite Ht.
  - by apply Hfree.
  - apply lookup_empty.
  - apply lookup_singleton_ne. lia.
Qed.

Lemma retired_run N ops s :
  timers_ok (page s) → retired N (page s) → retired N (page (run ops s)).
Proof.
  revert s. induction ops as [|op ops IH]; intros s Hok Hr; [done|].
  apply IH; [by apply step_timers | by apply step_retired].
Qed.

(** ** C5: the order of a stop report *)

(** C5.  In every state the receiver reaches, [reportPlaybackStopped] first
    clears the ping interval (the live one, when one is live), then
    broadcasts the playbackstop event, then posts the stop report.  No
    interval is live afterwards, so no tick runs and no ping is sent; and
    whatever the receiver does later, an interval that was handed out before
    the stop report never ticks again: a ping after a stop report can only
    come from an interval that a later report has started. *)
Theorem C5_reportPlaybackStopped_order ops st p :
  let s := run ops sys0 in
  let s1 := step (OpReportStop st p) s in
  new_events (page s) (page s1) =
    stop_events (page s) ++
    [Broadcast "playbackstop" st p;
     AuthAjax SessionsPlayingStopped "POST" (ReportingParams p)] ∧
  (timer_live (page s) = true →
     stop_events (page s) = [ClearInterval (pingInterval (page s))]) ∧
  timers (page s1) = ∅ ∧
  (∀ id now now', tick id now now' (page s1) = page s1) ∧
  (∀ ops' id now now',
     id < nextTimer (page s1) →
     tick id now now' (page (run ops' s1)) = page (run ops' s1)).
Proof.
  intros s s1.
  assert (timers_ok (page s)) as Hok by apply timers_ok_run, timers_ok_world0.
  assert (timers (page s1) = ∅) as Hempty.
  { unfold s1. cbn [step on_page page]. unfold reportPlaybackStopped.
    cbn [snd emit timers]. by rewrite (stopPingInterval_ok _ Hok). }
  split; [|split; [|split; [done|split]]].
  - apply new_events_app. unfold s1. cbn [step on_page page].
    unfold reportPlaybackStopped. cbn [snd emit trace].
    rewrite trace_stopPingInterval. by rewrite <- !app_assoc.
  - unfold timer_live, stop_events.
    destruct Hok as [_ [[Ht [Hp | Hp]] | (n & q & Hp & Hn & Ht)]]; rewrite Hp.
    + done.
    + rewrite Ht, lookup_empty. intros H. apply bool_decide_eq_true in H.
      by destruct H.
    + intros _. simpl. by assert ((n =? 0) = false) as -> by lia.
  - intros id now now'. unfold tick. by rewrite Hempty, lookup_empty.
  - intros ops' id now now' Hid.
    assert (timers_ok (page s1)) as Hok1 by by apply step_timers.
    assert (retired (nextTimer (page s1)) (page (run ops' s1))) as [_ Hfree].
    { apply retired_run; [done|]. split; [lia|].
      intros i _. rewrite Hempty. apply lookup_empty. }
    unfold tick. by rewrite (Hfree id Hid).
Qed.

Lemma C5_witness :
  let s1 := step (OpReportStop initialPlaybackState transcodeParams)
              (run [OpReportStart initialPlaybackState transcodeParams] sys0) in
  let later := run [OpReportStart initialPlaybackState transcodeParams] s1 in
  1 < nextTimer (page s1) ∧ tick 1 9000 9000 (page later) = page later.
Proof.
  split; [reflexivity|].
  apply (C5_reportPlaybackStopped_order
           [OpReportStart initialPlaybackState transcodeParams]
           initialPlaybackState transcodeParams).
  reflexivity.
Defined.

(** ** C3: ping coalescing *)

Lemma new_events_pingTranscoder p now now' w :
  new_events w (snd (pingTranscoder p now now' w)) =
    if now - lastTranscoderPing w <? 5000
    then [DateNow now; ConsoleDebug "Skipping ping due to recent progress check-in"]
    else [DateNow now; DateNow now'; pingRequest p].
Proof.
  apply new_events_app. unfold pingTranscoder. cbn [emit lastTranscoderPing].
  destruct (now - lastTranscoderPing w <? 5000); cbn [snd emit trace set_lastTranscoderPing];
    by rewrite <- !app_assoc.
Qed.

(** The timestamp after a call of [pingTranscoder]: the second reading of
    the clock when it pings, as before when it skips. *)
Lemma lastTranscoderPing_pingTranscoder p now now' w :
  lastTranscoderPing (snd (pingTranscoder p now now' w)) =
    if now - lastTranscoderPing w <? 5000 then lastTranscoderPing w else now'.
Proof.
  unfold pingTranscoder. cbn [emit lastTranscoderPing].
  by destruct (now - lastTranscoderPing w <? 5000).
Qed.

(** The other course of the example: when the progress report at 3 s is sent
    to the server as well, it moves the timestamp to 3 s, and the tick of the
    live interval at 6 s sends no request. *)
Remark server_report_at_3s_postpones_the_ping :
  let w := page after_report_3 in
  timers w !! 2 = Some transcodeParams ∧
  last_checkin (trace w) = 3000 ∧
  filter is_request (new_events w (tick 2 6000 6000 w)) = [] ∧
  filter is_request (new_events w (tick 2 8000 8000 w)) = [pingRequest transcodeParams].
Proof. vm_compute. done. Qed.

(** C3.  In every state the receiver reaches, a tick of a live ping
    interval calls the ping endpoint if and only if at least 5000 ms have
    passed since the latest ping or progress report to the server (since time
    0 when there was none), and a tick that does not ping sends no request at
    all.  The example, from any state the receiver reaches: a progress report
    to the server at [t0] that carries a transcode starts the interval [h]; a
    tick of [h] less than 5000 ms after [t0] sends no request; a progress
    report after it that is not sent to the server sends no request and
    leaves the report at [t0] the last event that updated the timestamp; the
    tick of [h] at 5000 ms or more after [t0] then reads the clock twice and
    sends the ping, for the session of the report at [t0].  With [t0] 0, the
    ticks at 1000 and 6000 and the second report at 3000 these are the times
    of the specification. *)
Theorem C3_ping_coalescing ops id p now now' :
  let s := run ops sys0 in
  let w := page s in
  (timers w !! id = Some p →
     (existsb is_ping (new_events w (tick id now now' w)) = true ↔
        5000 ≤ now - last_checkin (trace w)) ∧
     (now - last_checkin (trace w) < 5000 →
        filter is_request (new_events w (tick id now now' w)) = [])) ∧
  (∀ st q name t0 t1 t1' st' q' name' t3 t6 t6',
     is_Transcode (rp_PlayMethod q) = true →
     t1 - t0 < 5000 →
     5000 ≤ t6 - t0 →
     let h := nextTimer w in
     let s0 := step (OpReportProgress st q true name t0) s in
     let s1 := step (OpTick h t1 t1') s0 in
     let s3 := step (OpReportProgress st' q' false name' t3) s1 in
     let s6 := step (OpTick h t6 t6') s3 in
     timers (page s0) !! h = Some q ∧
     last_checkin (trace (page s0)) = t0 ∧
     filter is_request (new_events (page s0) (page s1)) = [] ∧
     filter is_request (new_events (page s1) (page s3)) = [] ∧
     timers (page s3) !! h = Some q ∧
     last_checkin (trace (page s3)) = t0 ∧
     new_events (page s3) (page s6) = [DateNow t6; DateNow t6'; pingRequest q] ∧
     filter is_request (new_events (page s3) (page s6)) = [pingRequest q] ∧
     existsb is_ping (new_events (page s3) (page s6)) = true).
Proof.
  intros s w.
  assert (timers_ok w) as Hok by apply timers_ok_run, timers_ok_world0.
  assert (∀ ops', checkin_ok (page (run ops' s))) as Hcheck.
  { intros ops'. apply checkin_ok_run; [done|].
    apply checkin_ok_run; [apply timers_ok_world0 | reflexivity]. }
  split.
  - intros Hlive.
    assert (lastTranscoderPing w = last_checkin (trace w)) as Hc by apply (Hcheck []).
    unfold tick. rewrite Hlive, new_events_pingTranscoder, Hc.
    destruct (now - last_checkin (trace w) <? 5000) eqn:E.
    + apply Z.ltb_lt in E. split; [|done]. split; [done | lia].
    + apply Z.ltb_ge in E. split; [|lia]. split; [lia | done].
  - intros st q name t0 t1 t1' st' q' name' t3 t6 t6' Hq Hlt Hge. cbv zeta.
    pose proof (Hcheck [OpReportProgress st q true name t0]) as Hc0.
    pose proof (Hcheck [OpReportProgress st q true name t0; OpTick (nextTimer w) t1 t1';
                        OpReportProgress st' q' false name' t3]) as Hc3.
    unfold checkin_ok in Hc0, Hc3. cbn [run fold_left] in Hc0, Hc3.
    rewrite <- Hc0, <- Hc3. clear Hc0 Hc3 Hcheck.
    cbn [step on_page page]. fold w.
    set (w0 := snd (reportPlaybackProgress st q true name t0 w)).
    assert (timers w0 = {[nextTimer w := q]} ∧ lastTranscoderPing w0 = t0) as [Ht0 Hl0].
    { unfold w0, reportPlaybackProgress. cbn [negb snd].
      assert (timers_ok (emit (Broadcast name st q) w)) as Hok1 by exact Hok.
      rewrite (restartPingInterval_ok _ _ Hok1), Hq. done. }
    assert (timers w0 !! nextTimer w = Some q) as Hlive0
      by (rewrite Ht0; apply lookup_singleton_eq).
    assert (tick (nextTimer w) t1 t1' w0 = snd (pingTranscoder q t1 t1' w0)) as ->
      by (unfold tick; by rewrite Hlive0).
    set (w1 := snd (pingTranscoder q t1 t1' w0)).
    assert (timers w1 = timers w0) as Ht1 by apply pingTranscoder_fields.
    assert (lastTranscoderPing w1 = t0) as Hl1.
    { unfold w1. rewrite lastTranscoderPing_pingTranscoder, Hl0.
      by assert ((t1 - t0 <? 5000) = true) as -> by lia. }
    assert (snd (reportPlaybackProgress st' q' false name' t3 w1) =
            emit (Broadcast name' st' q') w1) as -> by reflexivity.
    set (w3 := emit (Broadcast name' st' q') w1).
    assert (timers w3 !! nextTimer w = Some q) as Hlive3
      by (change (timers w3) with (timers w1); by rewrite Ht1).
    assert (lastTranscoderPing w3 = t0) as Hl3 by exact Hl1.
    assert (new_events w3 (tick (nextTimer w) t6 t6' w3) =
            [DateNow t6; DateNow t6'; pingRequest q]) as Hping.
    { unfold tick. rewrite Hlive3, new_events_pingTranscoder, Hl3.
      by assert ((t6 - t0 <? 5000) = false) as -> by lia. }
    split; [exact Hlive0|]. split; [exact Hl0|].
    split.
    { unfold w1. rewrite new_events_pingTranscoder, Hl0.
      by assert ((t1 - t0 <? 5000) = true) as -> by lia. }
    split.
    { assert (new_events w1 w3 = [Broadcast name' st' q']) as ->
        by by apply new_events_app.
      done. }
    split; [exact Hlive3|]. split; [exact Hl3|].
    rewrite Hping. done.
Qed.

Lemma C3_witness :
  let h := nextTimer (page sys0) in
  let s0 := step (progressAt 0) sys0 in
  let s1 := step (OpTick h 1000 1000) s0 in
  let s3 := step (OpReportProgress initialPlaybackState transcodeParams false
                    "playbackprogress" 3000) s1 in
  let s6 := step (OpTick h 6000 6000) s3 in
  (timers (page s0) !! h = Some transcodeParams ∧
   (existsb is_ping (new_events (page s0) (tick h 5000 5001 (page s0))) = true ↔
      5000 ≤ 5000 - last_checkin (trace (page s0)))) ∧
  filter is_request (new_events (page s0) (page s1)) = [] ∧
  filter is_request (new_events (page s3) (page s6)) = [pingRequest transcodeParams].
Proof.
  split; [split; [by vm_compute|]|].
  - apply (C3_ping_coalescing [progressAt 0] 1 transcodeParams 5000 5001).
    by vm_compute.
  - destruct (C3_ping_coalescing [] 1 transcodeParams 0 0) as [_ Hex].
    destruct (Hex initialPlaybackState transcodeParams "playbackprogress" 0 1000 1000
                initialPlaybackState transcodeParams "playbackprogress" 3000 6000 6000)
      as (_ & _ & H1 & _ & _ & _ & _ & H6 & _); [reflexivity | lia | lia |].
    split; [exact H1 | exact H6].
Defined.

(** ** C9: pings are five seconds apart *)

(** C9.  [pingTranscoder] sets the last-ping timestamp to the time it reads
    just before it sends the ping, and a tick that is skipped leaves the
    timestamp as it is.  No code of the reporter runs when a request settles,
    so a ping that fails has moved the timestamp all the same and the ticks
    of the next 5000 ms are skipped.  Hence, in every run in which the clock
    does not go backwards, any two pings are sent at least 5000 ms apart. *)
Theorem C9_pings_spaced ops :
  let s := run ops sys0 in
  let w := page s in
  StronglySorted Z.le (clock_reads (trace w)) →
  StronglySorted spaced (ping_times (trace w)) ∧
  (∀ p now now',
     let w' := snd (pingTranscoder p now now' w) in
     (5000 ≤ now - lastTranscoderPing w →
        lastTranscoderPing w' = now' ∧
        new_events w w' = [DateNow now; DateNow now'; pingRequest p]) ∧
     (now - lastTranscoderPing w < 5000 →
        lastTranscoderPing w' = lastTranscoderPing w ∧
        filter is_request (new_events w w') = [])) ∧
  (∀ id p now now' ok t t',
     timers w !! id = Some p →
     5000 ≤ now - lastTranscoderPing w →
     t - now' < 5000 →
     let s1 := step (OpSettled ok) (step (OpTick id now now') s) in
     filter is_request (new_events (page s1) (tick id t t' (page s1))) = []).
Proof.
  intros s w Hmono. split; [|split].
  - apply pings_ok_run; [apply timers_ok_world0 | apply pings_ok_world0 | done].
  - intros p now now'. cbn zeta. rewrite new_events_pingTranscoder.
    unfold pingTranscoder. cbn [emit lastTranscoderPing].
    split; intros H.
    + assert ((now - lastTranscoderPing w <? 5000) = false) as -> by lia. done.
    + assert ((now - lastTranscoderPing w <? 5000) = true) as -> by lia. done.
  - intros id p now now' ok t t' Hlive Hge Hlt.
    cbn [step on_page page]. fold s w.
    assert (tick id now now' w =
            snd (pingTranscoder p now now' w)) as -> by (unfold tick; by rewrite Hlive).
    unfold tick at 1.
    destruct (pingTranscoder_fields p now now' w) as (_ & -> & _). rewrite Hlive.
    rewrite new_events_pingTranscoder.
    assert (lastTranscoderPing (snd (pingTranscoder p now now' w)) = now') as ->.
    { unfold pingTranscoder. cbn [emit lastTranscoderPing].
      by assert ((now - lastTranscoderPing w <? 5000) = false) as -> by lia. }
    by assert ((t - now' <? 5000) = true) as -> by lia.
Qed.

Lemma C9_witness :
  let ops := [OpReportStart initialPlaybackState transcodeParams;
              OpTick 1 5000 5000; OpSettled false; OpTick 1 6000 6000;
              OpTick 1 10000 10001] in
  let tr := trace (page (run ops sys0)) in
  StronglySorted Z.le (clock_reads tr) ∧
  ping_times tr = [5000; 10001] ∧
  StronglySorted spaced (ping_times tr).
Proof.
  assert (StronglySorted Z.le
            (clock_reads (trace (page (run
               [OpReportStart initialPlaybackState transcodeParams;
                OpTick 1 5000 5000; OpSettled false; OpTick 1 6000 6000;
                OpTick 1 10000 10001] sys0))))) as Hmono.
  { vm_compute. repeat constructor; discriminate. }
  split; [exact Hmono|]. split; [by vm_compute|].
  apply (C9_pings_spaced _ Hmono).
Defined.

(** ** C4: resetting the playback state *)

(** What [resetPlaybackScope] does: fifteen fields get the value of the
    initializer, [runtimeTicks] keeps the value it had. *)
Lemma resetPlaybackScope_state s :
  playbackState (mgr (resetPlaybackScope s)) =
    resetPlaybackState (playbackState (mgr s)).
Proof. reflexivity. Qed.

Lemma resetPlaybackState_initial st :
  resetPlaybackState st = initialPlaybackState ↔ runtimeTicks st = 0.
Proof.
  unfold resetPlaybackState, initialPlaybackState. split.
  - intros H. by injection H.
  - by intros ->.
Qed.

(** C4.  After an item of one hour was loaded, [resetPlaybackScope] leaves
    [runtimeTicks] at the 36000000000 ticks of that item instead of the 0 of
    the initializer: the state after the reset is not the zero state.  Every
    other field has its zero value. *)
Theorem C4_resetPlaybackScope_runtimeTicks :
  let st := playbackState (mgr (resetPlaybackScope playingSys)) in
  runtimeTicks (playbackState (mgr playingSys)) = 36000000000 ∧
  runtimeTicks st = 36000000000 ∧
  st ≠ initialPlaybackState ∧
  st = {| startPositionTicks := 0; mediaType := Some EmptyString; itemId := EmptyString;
          audioStreamIndex := None; subtitleStreamIndex := None;
          mediaSource := None; mediaSourceId := EmptyString; PlaybackMediaSource := None;
          playMethod := None; canSeek := false; isChangingStream := false;
          playNextItemBool := true; item := None; liveStreamId := EmptyString;
          playSessionId := EmptyString; runtimeTicks := 36000000000 |}.
Proof.
  cbn zeta. rewrite resetPlaybackScope_state.
  split; [reflexivity|]. split; [reflexivity|]. split; [|reflexivity].
  rewrite resetPlaybackState_initial. discriminate.
Qed.

(** ** C7: no advance past the ends of the playlist *)





(** ** C6: opening a live stream *)

Lemma new_events_append l w : new_events w (append_events l w) = l.
Proof. by apply new_events_app. Qed.

Lemma playbackState_on_page f s :
  playbackState (mgr (on_page f s)) = playbackState (mgr s).
Proof. reflexivity. Qed.

Lemma playbackState_playMediaSource env sid it src options s :
  playbackState (mgr (playMediaSource env sid it src options s)) =
    published env sid it src options (playbackState (mgr s)).
Proof.
  unfold playMediaSource, load, resetPlaybackScope. cbv zeta.
  repeat (rewrite ?playbackState_on_page, ?playbackState_on_state).
  reflexivity.
Qed.

Lemma playlist_playMediaSource env sid it src options s :
  activePlaylist (mgr (playMediaSource env sid it src options s)) = activePlaylist (mgr s) ∧
  activePlaylistIndex (mgr (playMediaSource env sid it src options s)) =
    activePlaylistIndex (mgr s).
Proof.
  unfold playMediaSource, load, resetPlaybackScope. cbv zeta.
  repeat (rewrite ?mgr_on_page). done.
Qed.

(** C6.  When the source that was selected requires opening, the negotiation
    sends the request that opens the live stream, after the request for
    playback info.  If the answer carries a media source, [checkDirectPlay]
    is called on the opened source, and on no other, and [playMediaSource] is
    handed the opened source as [checkDirectPlay] left it: that is the source
    the playback state then holds.  If the request fails the negotiation is
    rejected right there: no source is checked, nothing is loaded, no further
    request is sent, and the manager is as before (with [isChangingStream]
    false). *)
Theorem C6_live_stream_opening env it options s maxBitrate info src :
  getMaxBitrate env = Some maxBitrate →
  answerPlaybackInfo env (Id it) = Some info →
  truthy (ErrorCode info) = None →
  getOptimalMediaSource env (MediaSources info) = Some src →
  RequiresOpening src = true →
  let r := playItemInternal env (Some it) options s in
  let st := set_isChangingStream false (playbackState (mgr s)) in
  (∃ rest, new_events (page s) (page (snd r)) =
             negotiation_events it options maxBitrate info src ++ rest) ∧
  (∀ opened,
     answerLiveStream env = Some (mkLiveStream (Some opened)) →
     fst r = Fulfilled tt ∧
     new_events (page s) (page (snd r)) =
       negotiation_events it options maxBitrate info src ++
       CheckDirectPlay opened :: handoff_events ∧
     playbackState (mgr (snd r)) =
       published env (PlaySessionId info) it (checkDirectPlay env opened) options st ∧
     PlaybackMediaSource (playbackState (mgr (snd r))) = Some (checkDirectPlay env opened) ∧
     mediaSource (playbackState (mgr (snd r))) = Some (checkDirectPlay env opened)) ∧
  (answerLiveStream env = None →
     fst r = Rejected "LiveStreams/Open" ∧
     new_events (page s) (page (snd r)) =
       negotiation_events it options maxBitrate info src ∧
     playbackState (mgr (snd r)) = st ∧
     activePlaylist (mgr (snd r)) = activePlaylist (mgr s) ∧
     activePlaylistIndex (mgr (snd r)) = activePlaylistIndex (mgr s)).
Proof.
  intros Hbit Hinfo Herr Hsrc Hopen. cbn zeta.
  unfold playItemInternal, getPlaybackInfo, getLiveStream.
  rewrite Hbit, Hinfo, Herr, Hsrc, Hopen. cbv zeta.
  split; [|split].
  - destruct (answerLiveStream env) as [[[opened|]]|]; cbn [MediaSource snd];
      rewrite ?page_playMediaSource; page_of_calls; rewrite new_events_append;
      eexists; unfold negotiation_events; cbn [app]; reflexivity.
  - intros opened ->. cbn [MediaSource fst snd].
    split; [done|]. split; [|split].
    + rewrite page_playMediaSource. page_of_calls. by rewrite new_events_append.
    + by rewrite playbackState_playMediaSource.
    + by rewrite playbackState_playMediaSource.
  - intros ->. cbn [fst snd]. split; [done|]. split; [|done].
    page_of_calls. by rewrite new_events_append.
Qed.

Lemma C6_witness :
  getMaxBitrate sampleEnv = Some 8000000 ∧
  RequiresOpening sampleSource = true ∧
  PlaybackMediaSource (playbackState (mgr playingSys)) = Some openedSource.
Proof.
  split; [reflexivity|]. split; [reflexivity|].
  destruct (C6_live_stream_opening sampleEnv sampleItem sampleOptions sys0 8000000
              (mkPlaybackInfo None [sampleSource] "session-B") sampleSource
              eq_refl eq_refl eq_refl eq_refl eq_refl) as (_ & Hopened & _).
  destruct (Hopened openedSource eq_refl) as (_ & _ & _ & Hsource & _).
  exact Hsource.
Defined.

(** ** C1: stop before the new item is negotiated *)

Lemma stop_reports_app l1 l2 : stop_reports (l1 ++ l2) = stop_reports l1 ++ stop_reports l2.
Proof. apply omap_app. Qed.

Lemma stop_reports_negotiation l :
  forallb negotiation_event l = true → stop_reports l = [].
Proof.
  induction l as [|e l IH]; intros H; [done|].
  simpl in H. apply andb_true_iff in H as [He Hl].
  change (e :: l) with ([e] ++ l).
  rewrite stop_reports_app, (IH Hl), app_nil_r.
  destruct e as [ | [] ? [] | | | | | | | ]; done.
Qed.

Lemma stop_reports_stop_events w : stop_reports (stop_events w) = [].
Proof. unfold stop_events. by destruct (handle_set (pingInterval w)). Qed.

Lemma negotiation_before_playbackInfo l :
  forallb negotiation_event l = true →
  forallb negotiation_event (before_playbackInfo l) = true.
Proof.
  induction l as [|e l IH]; intros H; [done|].
  simpl in H. apply andb_true_iff in H as [He Hl]. simpl.
  destruct (is_playbackInfo e); [done|]. simpl. by rewrite He, IH.
Qed.

Lemma before_playbackInfo_app l1 l2 :
  filter is_playbackInfo l1 = [] →
  before_playbackInfo (l1 ++ l2) = l1 ++ before_playbackInfo l2.
Proof.
  induction l1 as [|e l1 IH]; intros H; [done|].
  rewrite filter_cons in H. simpl.
  destruct (is_playbackInfo e) eqn:E.
  - case_decide; [done | by exfalso].
  - case_decide; [done | by rewrite IH].
Qed.

Lemma no_playbackInfo_stop_events w : filter is_playbackInfo (stop_events w) = [].
Proof. unfold stop_events. by destruct (handle_set (pingInterval w)). Qed.

(** The negotiation asks for playback info once, for the item it is given. *)
Lemma playbackInfo_requests env it options s maxBitrate :
  getMaxBitrate env = Some maxBitrate →
  filter is_playbackInfo
    (new_events (page s) (page (snd (playItemInternal env (Some it) options s)))) =
  [AuthAjax (ItemsPlaybackInfo (Id it)) "POST"
     (PlaybackInfoQuery maxBitrate (default 0 (o_startPositionTicks options))
        (truthy (o_mediaSourceId options)) (o_audioStreamIndex options)
        (o_subtitleStreamIndex options) None)].
Proof.
  intros Hbit. unfold playItemInternal, getPlaybackInfo, getLiveStream.
  rewrite Hbit. cbv zeta.
  repeat case_match; cbn [snd]; rewrite ?page_playMediaSource; page_of_calls;
    rewrite new_events_append; reflexivity.
Qed.

(** C1.  In every state the receiver reaches, [playItem] with [stopPlayer]
    true is the manager's stop followed by the negotiation of the new item.
    The stop sends one stop report, which carries the session id of the
    playback state, and clears the ping interval: no interval is live when
    the stop returns, and the stop sends no request for playback info.  All
    that the negotiation does comes after it and has no stop report in it.
    So the call sends exactly one stop report, for the session that was
    playing, and sends it before its first request for playback info; when
    the bitrate is known and the item is defined that request is sent, once,
    for the new item. *)
Theorem C1_stop_before_playbackInfo ops env item options :
  let s := run ops sys0 in
  let sid := playSessionId (playbackState (mgr s)) in
  let s1 := stop env true s in
  let s' := snd (playItem env item options true s) in
  playItem env item options true s = playItemInternal env item options s1 ∧
  timers (page s1) = ∅ ∧
  stop_reports (new_events (page s) (page s1)) = [sid] ∧
  filter is_playbackInfo (new_events (page s) (page s1)) = [] ∧
  (∃ l, new_events (page s) (page s') = new_events (page s) (page s1) ++ l ∧
        new_events (page s1) (page s') = l ∧ stop_reports l = []) ∧
  stop_reports (new_events (page s) (page s')) = [sid] ∧
  stop_reports (before_playbackInfo (new_events (page s) (page s'))) = [sid] ∧
  (∀ maxBitrate it,
     getMaxBitrate env = Some maxBitrate → item = Some it →
     filter is_playbackInfo (new_events (page s) (page s')) =
       [AuthAjax (ItemsPlaybackInfo (Id it)) "POST"
          (PlaybackInfoQuery maxBitrate (default 0 (o_startPositionTicks options))
             (truthy (o_mediaSourceId options)) (o_audioStreamIndex options)
             (o_subtitleStreamIndex options) None)]).
Proof.
  intros s sid s1 s'.
  assert (timers_ok (page s)) as Hok by apply timers_ok_run, timers_ok_world0.
  pose proof (page_stop env true s Hok) as Hstop. fold s1 in Hstop.
  set (report := [Broadcast "playbackstop"
          (set_playNextItemBool true (playbackState (mgr s)))
          (getReportingParams (currentPositionTicks env)
             (set_playNextItemBool true (playbackState (mgr s))));
        AuthAjax SessionsPlayingStopped "POST"
          (ReportingParams
             (getReportingParams (currentPositionTicks env)
                (set_playNextItemBool true (playbackState (mgr s)))));
        Call "playerManager.stop";
        Call "DocumentManager.startBackdropInterval"]) in Hstop.
  assert (new_events (page s) (page s1) = stop_events (page s) ++ report) as Hnew1
    by (apply new_events_app; by rewrite Hstop).
  assert (s' = snd (playItemInternal env item options s1)) as Hs' by reflexivity.
  destruct (page_playItemInternal env item options s1) as (l & Hl & Hneg).
  rewrite <- Hs' in Hl.
  assert (new_events (page s) (page s') = (stop_events (page s) ++ report) ++ l) as Hnew.
  { apply new_events_app. rewrite Hl. cbn [append_events trace]. rewrite Hstop.
    cbn [trace]. by rewrite <- !app_assoc. }
  assert (stop_reports (stop_events (page s) ++ report) = [sid]) as Hone.
  { rewrite stop_reports_app, stop_reports_stop_events. reflexivity. }
  assert (filter is_playbackInfo (stop_events (page s) ++ report) = []) as Hnone.
  { rewrite filter_app, no_playbackInfo_stop_events. reflexivity. }
  split; [reflexivity|]. split; [by rewrite Hstop|].
  split; [by rewrite Hnew1|]. split; [by rewrite Hnew1|].
  split; [|split; [|split]].
  - exists l. rewrite Hnew, Hnew1. split; [done|]. split.
    + apply new_events_app. by rewrite Hl.
    + by apply stop_reports_negotiation.
  - rewrite Hnew, stop_reports_app, Hone, stop_reports_negotiation by done. done.
  - rewrite Hnew, before_playbackInfo_app, stop_reports_app, Hone by done.
    rewrite stop_reports_negotiation by by apply negotiation_before_playbackInfo.
    done.
  - intros maxBitrate it Hbit ->.
    rewrite Hnew, filter_app, Hnone. cbn [app].
    assert (l = new_events (page s1) (page s')) as ->
      by (symmetry; apply new_events_app; by rewrite Hl).
    rewrite Hs'. by apply playbackInfo_requests.
Qed.

Lemma C1_witness :
  getMaxBitrate sampleEnv = Some 8000000 ∧
  stop_reports
    (before_playbackInfo
       (new_events (page playingSys)
          (page (snd (playItem sampleEnv (Some sampleItem) sampleOptions true
                        (run [OpPlayItem sampleEnv (Some sampleItem) sampleOptions false]
                           sys0)))))) = ["session-B"].
Proof.
  split; [reflexivity|].
  apply (C1_stop_before_playbackInfo
           [OpPlayItem sampleEnv (Some sampleItem) sampleOptions false]
           sampleEnv (Some sampleItem) sampleOptions).
Defined.

(** ** C10: the bitrate probe returns *)

(** A probe of zero bytes measures nothing: the rate is 0, or not a number
    when the answer took no time. *)
Lemma downloadSpeed_0 elapsed :
  downloadSpeed 0 elapsed = Fin 0 ∨ downloadSpeed 0 elapsed = NaN.
Proof.
  unfold downloadSpeed, round_div.
  destruct (elapsed =? 0) eqn:E0; [by right|]. left.
  apply Z.eqb_neq in E0.
  destruct (0 <? elapsed) eqn:E1; f_equal.
  - apply Z.ltb_lt in E1. apply Z.div_small. lia.
  - apply Z.ltb_ge in E1. apply Z.div_small. lia.
Qed.

Lemma detectBitrate_0 fuel net :
  (∀ k, net k ≠ Failed) → detectBitrate fuel net 0 = None.
Proof.
  revert net. induction fuel as [|fuel IH]; intros net Hnet; [done|].
  cbn [detectBitrate]. change (byteLimit <? 0) with false. cbv iota.
  destruct (net 0%nat) as [elapsed|] eqn:E; [|by destruct (Hnet 0%nat)].
  assert (quarter_lt (downloadSpeed 0 elapsed) 0 = false) as ->
    by (destruct (downloadSpeed_0 elapsed) as [-> | ->]; reflexivity).
  change (byteLimit <=? 0) with false. change (0 * 2) with 0. cbn [orb].
  apply IH. intros k. apply Hnet.
Qed.

(** C10, as stated, fails: for [numBytes = 0] the doubled argument is 0
    again and the limit is never reached.  With a server that answers every
    probe (here after 100 ms) no number of calls brings a result. *)
Lemma C10_counterexample :
  ¬ ∃ fuel r, detectBitrate fuel (fun _ => Answered 100) 0 = Some r.
Proof.
  intros (fuel & r & H). by rewrite detectBitrate_0 in H.
Qed.

Lemma detectBitrate_S fuel net numBytes :
  detectBitrate (S fuel) net numBytes =
    let clamped := if byteLimit <? numBytes then byteLimit else numBytes in
    match net O with
    | Failed => Some (Rejected "BitrateTest")
    | Answered elapsed =>
        if quarter_lt (downloadSpeed clamped elapsed) clamped || (byteLimit <=? clamped)
        then Some (Fulfilled (round_08 (downloadSpeed clamped elapsed)))
        else detectBitrate fuel (fun k => net (S k)) (clamped * 2)
    end.
Proof. reflexivity. Qed.

Lemma detectBitrate_returns fuel net numBytes :
  0 < numBytes → byteLimit ≤ numBytes * 2 ^ Z.of_nat fuel →
  ∃ r, detectBitrate (S fuel) net numBytes = Some r.
Proof.
  revert net numBytes. induction fuel as [|fuel IH]; intros net n Hpos Hbig;
    rewrite detectBitrate_S; cbv zeta;
    (destruct (net 0%nat) as [elapsed|]; [|eauto]).
  - assert ((byteLimit <=? (if byteLimit <? n then byteLimit else n)) = true) as ->.
    { cbn in Hbig. destruct (byteLimit <? n) eqn:E; lia. }
    rewrite orb_true_r. eauto.
  - destruct (byteLimit <? n) eqn:E.
    + assert ((byteLimit <=? byteLimit) = true) as -> by lia.
      rewrite orb_true_r. eauto.
    + destruct (quarter_lt (downloadSpeed n elapsed) n || (byteLimit <=? n)); [eauto|].
      apply IH; [lia|].
      rewrite Nat2Z.inj_succ, Z.pow_succ_r in Hbig by lia. lia.
Qed.

(** C10, amended.  [detectBitrate] clamps its argument to the limit of
    10000000 bytes and doubles it in every recursive call; for every
    [numBytes] of at least 1 it returns after at most 25 probes, whatever the
    server answers: with the rate or, when a probe fails, with the failure. *)
Theorem C10_detectBitrate_terminates net numBytes :
  0 < numBytes →
  ∃ r, detectBitrate 25 net numBytes = Some r.
Proof.
  intros Hpos. apply (detectBitrate_returns 24); [done|].
  unfold byteLimit. change (2 ^ Z.of_nat 24) with 16777216. lia.
Qed.

Lemma C10_witness :
  0 < 500000 ∧ ∃ r, detectBitrate 25 (fun _ => Answered 100) 500000 = Some r.
Proof.
  split; [done|]. apply C10_detectBitrate_terminates. done.
Defined.

(** * Further properties of the reporter *)

(** ** Stopping the ping interval twice *)

Lemma pingInterval_stopPingInterval w : pingInterval (stopPingInterval w) = Some 0.
Proof.
  unfold stopPingInterval. destruct (pingInterval w) as [n|] eqn:E; simpl.
  - destruct (n =? 0) eqn:En; simpl; [|done].
    apply Z.eqb_eq in En. by rewrite E, En.
  - done.
Qed.

(** X1.  [stopPingInterval] is idempotent in every state of the page, also one
    the reporter never reaches: after one call the handle is 0, and a second
    call neither calls [clearInterval] nor changes anything. *)
Theorem X1_stopPingInterval_idempotent w :
  pingInterval (stopPingInterval w) = Some 0 ∧
  stopPingInterval (stopPingInterval w) = stopPingInterval w ∧
  new_events (stopPingInterval w) (stopPingInterval (stopPingInterval w)) = [].
Proof.
  assert (stopPingInterval (stopPingInterval w) = stopPingInterval w) as Hidem.
  { unfold stopPingInterval at 1. by rewrite pingInterval_stopPingInterval. }
  split; [apply pingInterval_stopPingInterval|]. split; [done|].
  rewrite Hidem. apply new_events_app. by rewrite app_nil_r.
Qed.

(** ** A start report is not a check-in *)

(** X2.  In every state the receiver reaches, [reportPlaybackStart] leaves the
    last-ping timestamp as it is: a start report does not count as a check-in.
    When it carries a transcode, a tick of the interval it has just set pings
    if and only if 5000 ms have passed since the latest ping or progress
    report before the start report; on a fresh page that is since time 0. *)
Theorem X2_start_is_no_checkin ops st p now now' :
  let s := run ops sys0 in
  let s1 := step (OpReportStart st p) s in
  lastTranscoderPing (page s1) = lastTranscoderPing (page s) ∧
  last_checkin (trace (page s1)) = last_checkin (trace (page s)) ∧
  (is_Transcode (rp_PlayMethod p) = true →
     timers (page s1) !! nextTimer (page s) = Some p ∧
     (existsb is_ping
        (new_events (page s1) (tick (nextTimer (page s)) now now' (page s1))) = true ↔
      5000 ≤ now - last_checkin (trace (page s)))).
Proof.
  intros s s1.
  assert (timers_ok (page s)) as Hok by apply timers_ok_run, timers_ok_world0.
  assert (checkin_ok (page s)) as Hc
    by (apply checkin_ok_run; [apply timers_ok_world0 | reflexivity]).
  assert (checkin_ok (page s1)) as Hc1
    by (eapply effect_checkin; [by apply step_effect | done]).
  assert (lastTranscoderPing (page s1) = lastTranscoderPing (page s)) as Hlast.
  { unfold s1. cbn [step on_page page]. unfold reportPlaybackStart.
    cbn [snd emit lastTranscoderPing].
    by rewrite lastTranscoderPing_restartPingInterval. }
  split; [done|]. split; [by rewrite <- Hc1, <- Hc|].
  intros Htrans.
  assert (timers (page s1) !! nextTimer (page s) = Some p) as Hlive.
  { unfold s1. cbn [step on_page page]. unfold reportPlaybackStart.
    cbn [snd emit timers].
    rewrite (restartPingInterval_ok p
               (emit (Broadcast "playbackstart" st p)
                  (emit (Call "DocumentManager.clearBackdropInterval") (page s))) Hok).
    rewrite Htrans. cbn [timers emit nextTimer].
    apply lookup_singleton_eq. }
  split; [done|].
  unfold tick. rewrite Hlive, new_events_pingTranscoder, Hlast, Hc.
  destruct (now - last_checkin (trace (page s)) <? 5000) eqn:E.
  - apply Z.ltb_lt in E. split; [done | lia].
  - apply Z.ltb_ge in E. split; [lia | done].
Qed.

Lemma X2_witness :
  is_Transcode (rp_PlayMethod transcodeParams) = true ∧
  timers (page (step (OpReportStart initialPlaybackState transcodeParams) sys0)) !! 1 =
    Some transcodeParams.
Proof.
  split; [reflexivity|].
  apply (X2_start_is_no_checkin [] initialPlaybackState transcodeParams 5000 5000).
  reflexivity.
Defined.

(** ** The parameters of the pings *)

Lemma fold_last {A B} (f : B → option A) l acc :
  fold_left (fun acc x => default acc (f x)) l acc = default acc (last (omap f l)).
Proof.
  revert acc. induction l as [|x l IH]; intros acc; [done|].
  cbn [fold_left omap list_omap]. rewrite IH.
  destruct (f x) as [b|]; [|done].
  rewrite last_cons. by destruct (last (omap f l)).
Qed.

Lemma timer_state_fields w w' :
  pingInterval w' = pingInterval w → timers w' = timers w →
  timer_state w' = timer_state w.
Proof. unfold timer_state. intros -> ->. done. Qed.

Lemma timer_state_stopped last nt tr : timer_state (mkWorld (Some 0) last ∅ nt tr) = None.
Proof. unfold timer_state. simpl. apply lookup_empty. Qed.

Lemma timer_state_restartPingInterval p w :
  timers_ok w →
  timer_state (restartPingInterval p w) =
    if is_Transcode (rp_PlayMethod p) then Some p else None.
Proof.
  intros Hok. rewrite (restartPingInterval_ok _ _ Hok).
  destruct (is_Transcode (rp_PlayMethod p)); unfold timer_state; simpl.
  - apply lookup_singleton_eq.
  - apply lookup_empty.
Qed.

Lemma step_timer_state op s :
  timers_ok (page s) →
  timer_state (page (step op s)) = default (timer_state (page s)) (timer_capture op).
Proof.
  intros Hok.
  destruct op as [st p | st p [] name now | st p | id now now' | ok | | env c
                 | env it options []];
    cbn [step on_page page timer_capture default].
  - unfold reportPlaybackStart. cbn [snd].
    rewrite (timer_state_fields
               (restartPingInterval p
                  (emit (Broadcast "playbackstart" st p)
                     (emit (Call "DocumentManager.clearBackdropInterval") (page s)))))
      by done.
    by apply timer_state_restartPingInterval.
  - unfold reportPlaybackProgress. cbn [negb snd].
    rewrite (timer_state_fields
               (restartPingInterval p (emit (Broadcast name st p) (page s)))) by done.
    by apply timer_state_restartPingInterval.
  - done.
  - unfold reportPlaybackStopped. cbn [snd]. rewrite (stopPingInterval_ok _ Hok).
    apply timer_state_stopped.
  - destruct (tick_fields id now now' (page s)) as (Hp & Ht & _).
    by apply timer_state_fields.
  - done.
  - rewrite (stopPingInterval_ok _ Hok). apply timer_state_stopped.
  - rewrite (page_stop _ _ _ Hok). apply timer_state_stopped.
  - unfold playItem, onStopPlayerBeforePlaybackDone.
    destruct (page_playItemInternal env it options (stop env true s)) as (l & -> & _).
    rewrite (page_stop _ _ _ Hok). apply timer_state_stopped.
  - unfold playItem, onStopPlayerBeforePlaybackDone.
    by destruct (page_playItemInternal env it options s) as (l & -> & _).
Qed.

Lemma timer_state_run_from ops s :
  timers_ok (page s) →
  timer_state (page (run ops s)) =
    fold_left (fun acc op => default acc (timer_capture op)) ops (timer_state (page s)).
Proof.
  revert s. induction ops as [|op ops IH]; intros s Hok; [done|].
  cbn [run fold_left]. rewrite <- (step_timer_state op s Hok).
  apply IH. by apply step_timers.
Qed.

Lemma timer_state_run ops :
  timer_state (page (run ops sys0)) = timer_params ops.
Proof.
  rewrite timer_state_run_from by apply timers_ok_world0.
  apply (fold_last timer_capture ops None).
Qed.

Lemma timer_state_timers w :
  timers_ok w →
  match timer_state w with
  | Some p => ∃ n, pingInterval w = Some n ∧ timers w = {[n := p]}
  | None => timers w = ∅
  end.
Proof.
  unfold timer_state.
  intros [_ [[Ht [Hp | Hp]] | (n & q & Hp & Hn & Ht)]]; rewrite Hp.
  - done.
  - by rewrite Ht, lookup_empty.
  - rewrite Ht, lookup_singleton_eq. eauto.
Qed.

(** X3.  In every state the receiver reaches, the live interval, if there is
    one, closes over the parameters of the most recent start report or
    progress report to the server, and that report carried a transcode; no
    interval is live when a stop or a report of another play method came
    last.  So a tick sends nothing, or it sends one ping, and that ping
    carries the play session id of that most recent report, not one of an
    earlier session. *)
Theorem X3_ping_carries_latest_session ops id now now' :
  let w := page (run ops sys0) in
  match timer_params ops with
  | Some p => ∃ n, pingInterval w = Some n ∧ timers w = {[n := p]}
  | None => timers w = ∅
  end ∧
  (filter is_request (new_events w (tick id now now' w)) = [] ∨
   ∃ p, timer_params ops = Some p ∧
        filter is_request (new_events w (tick id now now' w)) = [pingRequest p]).
Proof.
  intros w.
  assert (timers_ok w) as Hok by apply timers_ok_run, timers_ok_world0.
  pose proof (timer_state_timers w Hok) as Hst.
  unfold w in Hst at 1. rewrite timer_state_run in Hst. fold w in Hst.
  split; [exact Hst|].
  unfold tick. destruct (timers w !! id) as [q|] eqn:Hq.
  - rewrite new_events_pingTranscoder.
    destruct (now - lastTranscoderPing w <? 5000); [by left|]. right.
    destruct (timer_params ops) as [p|].
    + destruct Hst as (n & _ & Ht). rewrite Ht in Hq.
      apply lookup_singleton_Some in Hq as [_ <-]. by exists p.
    + by rewrite Hst, lookup_empty in Hq.
  - left. assert (new_events w w = []) as -> by (apply new_events_app; by rewrite app_nil_r).
    done.
Qed.

(** ** Only a transcode is pinged *)

Lemma no_ping_silent l : forallb silent l = true → filter is_ping l = [].
Proof.
  induction l as [|e l IH]; intros H; [done|].
  simpl in H. apply andb_true_iff in H as [He Hl].
  rewrite filter_cons, (IH Hl).
  destruct e as [ | [] | | | | | | | ]; done.
Qed.

Lemma new_events_same w : new_events w w = [].
Proof. apply new_events_app. by rewrite app_nil_r. Qed.

(** Only the tick of a live interval sends a ping. *)
Lemma step_sends_no_ping op s :
  timers_ok (page s) →
  (∀ id now now', op = OpTick id now now' → timers (page s) !! id = None) →
  filter is_ping (new_events (page s) (page (step op s))) = [].
Proof.
  intros Hok Htick.
  destruct op as [st p | st p [] name now | st p | id now now' | ok | | env c
                 | env it options []];
    cbn [step on_page page].
  - unfold reportPlaybackStart. cbn [snd].
    rewrite (new_events_app _ _
               ([Call "DocumentManager.clearBackdropInterval";
                 Broadcast "playbackstart" st p] ++
                restart_events p (page s) ++
                [AuthAjax SessionsPlaying "POST" (ReportingParams p)])).
    + apply no_ping_silent. apply silent_app; [done|]. apply silent_app; [|done].
      apply silent_restart_events.
    + cbn [emit trace]. rewrite trace_restartPingInterval. cbn [emit trace].
      rewrite <- !app_assoc. reflexivity.
  - unfold reportPlaybackProgress. cbn [negb snd].
    rewrite (new_events_app _ _
               (([Broadcast name st p] ++ restart_events p (page s)) ++
                [DateNow now;
                 AuthAjax SessionsPlayingProgress "POST" (ReportingParams p)])).
    + rewrite filter_app, no_ping_silent; [done|].
      apply silent_app; [done | apply silent_restart_events].
    + cbn [emit trace set_lastTranscoderPing].
      rewrite trace_restartPingInterval. cbn [emit trace].
      rewrite <- !app_assoc. reflexivity.
  - unfold reportPlaybackProgress. cbn [negb snd].
    by rewrite (new_events_app _ _ [Broadcast name st p]).
  - unfold reportPlaybackStopped. cbn [snd].
    rewrite (new_events_app _ _
               (stop_events (page s) ++
                [Broadcast "playbackstop" st p;
                 AuthAjax SessionsPlayingStopped "POST" (ReportingParams p)])).
    + apply no_ping_silent, silent_app; [apply silent_stop_events | done].
    + cbn [emit trace]. rewrite trace_stopPingInterval.
      rewrite <- !app_assoc. reflexivity.
  - unfold tick. rewrite (Htick id now now' eq_refl). by rewrite new_events_same.
  - by rewrite new_events_same.
  - rewrite (new_events_app _ _ (stop_events (page s)) (trace_stopPingInterval _)).
    apply no_ping_silent, silent_stop_events.
  - rewrite (page_stop _ _ _ Hok).
    erewrite new_events_app; [|reflexivity].
    apply no_ping_silent, silent_app; [apply silent_stop_events | done].
  - unfold playItem, onStopPlayerBeforePlaybackDone.
    destruct (page_playItemInternal env it options (stop env true s)) as (l & -> & Hl).
    rewrite (page_stop _ _ _ Hok).
    erewrite new_events_app; [|cbn [append_events trace]; by rewrite <- app_assoc].
    apply no_ping_silent.
    apply silent_app; [apply silent_app; [apply silent_stop_events | done]|].
    by apply negotiation_silent.
  - unfold playItem, onStopPlayerBeforePlaybackDone.
    destruct (page_playItemInternal env it options s) as (l & -> & Hl).
    rewrite new_events_append. by apply no_ping_silent, negotiation_silent.
Qed.

Lemma trace_step op s :
  timers_ok (page s) →
  trace (page (step op s)) = trace (page s) ++ new_events (page s) (page (step op s)).
Proof.
  intros Hok. destruct (effect_trace _ _ (step_effect op s Hok)) as [l Hl].
  by rewrite (new_events_app _ _ _ Hl).
Qed.

Lemma timer_params_none ops :
  Forall (fun op => timer_verdict op ≠ Some true) ops → timer_params ops = None.
Proof.
  intros H. unfold timer_params.
  assert (Forall (fun c => c = None) (omap timer_capture ops)) as Hall.
  { induction H as [|op ops Hop _ IH]; [constructor|].
    cbn [omap list_omap].
    destruct op as [st p | st p [] name now | st p | id now now' | ok | | env c
                   | env it options []]; cbn in Hop |- *; try done;
      try (constructor; [done | exact IH]);
      (destruct (is_Transcode (rp_PlayMethod p)); [done|]; by constructor). }
  destruct (last (omap timer_capture ops)) as [c|] eqn:E; [|done].
  apply last_Some_elem_of in E. by apply (proj1 (Forall_forall _ _) Hall) in E as ->.
Qed.

(** X4.  In a run in which no start report and no progress report to the
    server carries the play method Transcode, no interval is ever live and
    the ping endpoint is never called: direct play and direct stream
    sessions are not pinged, whatever ticks the browser delivers. *)
Theorem X4_only_transcode_is_pinged ops :
  Forall (fun op => timer_verdict op ≠ Some true) ops →
  timers (page (run ops sys0)) = ∅ ∧
  filter is_ping (trace (page (run ops sys0))) = [].
Proof.
  intros Hall.
  assert (∀ ops', Forall (fun op => timer_verdict op ≠ Some true) ops' →
                  timers (page (run ops' sys0)) = ∅) as Hempty.
  { intros ops' H'.
    pose proof (timer_state_timers _ (timers_ok_run ops' sys0 timers_ok_world0)) as Hst.
    by rewrite timer_state_run, (timer_params_none _ H') in Hst. }
  split; [by apply Hempty|].
  induction ops as [|op ops IH] using rev_ind; [done|].
  apply Forall_app in Hall as [Hops Hop].
  rewrite run_snoc, trace_step by apply timers_ok_run, timers_ok_world0.
  rewrite filter_app, (IH Hops), step_sends_no_ping; [done| |].
  - apply timers_ok_run, timers_ok_world0.
  - intros id now now' _. rewrite (Hempty ops Hops). apply lookup_empty.
Qed.

Lemma X4_witness :
  let ops := [OpReportStart initialPlaybackState directPlayParams;
              OpTick 1 9000 9000;
              OpReportProgress initialPlaybackState directPlayParams true
                "playbackprogress" 10000;
              OpTick 1 20000 20000] in
  Forall (fun op => timer_verdict op ≠ Some true) ops ∧
  filter is_ping (trace (page (run ops sys0))) = [].
Proof.
  assert (Forall (fun op => timer_verdict op ≠ Some true)
            [OpReportStart initialPlaybackState directPlayParams;
             OpTick 1 9000 9000;
             OpReportProgress initialPlaybackState directPlayParams true
               "playbackprogress" 10000;
             OpTick 1 20000 20000]) as Hall by (repeat constructor; discriminate).
  split; [exact Hall|].
  apply (X4_only_transcode_is_pinged _ Hall).
Defined.

(** * Further properties of the manager *)

(** ** The older manager: stop and onStopped *)



(** ** Projections of the state through the calls *)

Lemma window_on_page f s : window (on_page f s) = window s.
Proof. reflexivity. Qed.

Lemma window_on_state f s : window (on_state f s) = window s.
Proof. reflexivity. Qed.

Lemma window_set_playlist l i s : window (set_playlist l i s) = window s.
Proof. reflexivity. Qed.

Lemma activePlaylist_on_page f s : activePlaylist (mgr (on_page f s)) = activePlaylist (mgr s).
Proof. reflexivity. Qed.

Lemma activePlaylist_on_state f s : activePlaylist (mgr (on_state f s)) = activePlaylist (mgr s).
Proof. reflexivity. Qed.

Lemma activePlaylistIndex_on_page f s :
  activePlaylistIndex (mgr (on_page f s)) = activePlaylistIndex (mgr s).
Proof. reflexivity. Qed.

Lemma activePlaylistIndex_on_state f s :
  activePlaylistIndex (mgr (on_state f s)) = activePlaylistIndex (mgr s).
Proof. reflexivity. Qed.

Lemma playbackState_set_playlist l i s :
  playbackState (mgr (set_playlist l i s)) = playbackState (mgr s).
Proof. reflexivity. Qed.

Lemma window_playMediaSource env sid it src options s :
  window (playMediaSource env sid it src options s) = window s.
Proof.
  unfold playMediaSource, load, resetPlaybackScope. cbv zeta.
  by repeat (rewrite ?window_on_page, ?window_on_state).
Qed.

Lemma activePlaylist_playMediaSource env sid it src options s :
  activePlaylist (mgr (playMediaSource env sid it src options s)) = activePlaylist (mgr s).
Proof. apply playlist_playMediaSource. Qed.

Lemma activePlaylistIndex_playMediaSource env sid it src options s :
  activePlaylistIndex (mgr (playMediaSource env sid it src options s)) =
    activePlaylistIndex (mgr s).
Proof. apply playlist_playMediaSource. Qed.

Create Rewrite HintDb projections.

#[local] Hint Rewrite window_on_page window_on_state window_set_playlist
  activePlaylist_on_page activePlaylist_on_state activePlaylistIndex_on_page
  activePlaylistIndex_on_state playbackState_on_page playbackState_on_state
  playbackState_set_playlist window_playMediaSource activePlaylist_playMediaSource
  activePlaylistIndex_playMediaSource playbackState_playMediaSource
  page_playMediaSource page_on_page page_on_state page_set_playlist : projections.

(** ** Loading an item leaves nothing of the session before *)

(** X6.  [load] resets the playback state and fills it from the custom data
    and the item: the state afterwards is the same whatever it was before.
    In particular [runtimeTicks], which the reset leaves alone, is the one of
    the custom data, and the two media sources are null until
    [playMediaSource] sets them.  [load] sends no request and leaves the
    playlist alone. *)
Theorem X6_load_no_carry_over customData it s s' :
  playbackState (mgr (load customData it s)) =
    playbackState (mgr (load customData it s')) ∧
  playbackState (mgr (load customData it s)) =
    {| startPositionTicks := cd_startPositionTicks customData;
       mediaType := MediaType it;
       itemId := cd_itemId customData;
       audioStreamIndex := cd_audioStreamIndex customData;
       subtitleStreamIndex := cd_subtitleStreamIndex customData;
       mediaSource := None;
       mediaSourceId := cd_mediaSourceId customData;
       PlaybackMediaSource := None;
       playMethod := cd_playMethod customData;
       canSeek := cd_canSeek customData;
       isChangingStream := false;
       playNextItemBool := true;
       item := Some it;
       liveStreamId := cd_liveStreamId customData;
       playSessionId := cd_playSessionId customData;
       runtimeTicks := cd_runtimeTicks customData |} ∧
  activePlaylist (mgr (load customData it s)) = activePlaylist (mgr s) ∧
  activePlaylistIndex (mgr (load customData it s)) = activePlaylistIndex (mgr s) ∧
  filter is_request (new_events (page s) (page (load customData it s))) = [].
Proof.
  assert (∀ s0, playbackState (mgr (load customData it s0)) =
                loadPlaybackState customData it
                  (resetPlaybackState (playbackState (mgr s0)))) as Hstate.
  { intros s0. unfold load, resetPlaybackScope. cbv zeta.
    by autorewrite with projections. }
  split; [by rewrite !Hstate|]. split; [by rewrite Hstate|].
  split; [|split].
  - unfold load, resetPlaybackScope. cbv zeta. by autorewrite with projections.
  - unfold load, resetPlaybackScope. cbv zeta. by autorewrite with projections.
  - by rewrite page_load, new_events_append.
Qed.

(** X7.  [playMediaSource] hands the source to the player without a request
    to the server and without touching the ping interval, the last-ping
    timestamp, the playlist or its index.  The playback state it publishes
    holds the source in both source fields and the item, and is the same
    whatever the state was before. *)
Theorem X7_playMediaSource_publishes env sid it src options s s' :
  let s1 := playMediaSource env sid it src options s in
  playbackState (mgr s1) =
    playbackState (mgr (playMediaSource env sid it src options s')) ∧
  mediaSource (playbackState (mgr s1)) = Some src ∧
  PlaybackMediaSource (playbackState (mgr s1)) = Some src ∧
  item (playbackState (mgr s1)) = Some it ∧
  runtimeTicks (playbackState (mgr s1)) =
    cd_runtimeTicks (createCustomData env sid it src (o_startPositionTicks options)) ∧
  activePlaylist (mgr s1) = activePlaylist (mgr s) ∧
  activePlaylistIndex (mgr s1) = activePlaylistIndex (mgr s) ∧
  window s1 = window s ∧
  page s1 = append_events handoff_events (page s) ∧
  filter is_request (new_events (page s) (page s1)) = [].
Proof.
  cbn zeta. autorewrite with projections.
  repeat split; try reflexivity. by rewrite new_events_append.
Qed.

(** ** A negotiation loads the item or leaves the state alone *)

Ltac negotiation_branch :=
  cbn [fst snd]; autorewrite with projections; page_of_calls;
  rewrite ?new_events_append.

(** X8.  However a negotiation ends, it leaves the playlist, its index, the
    window globals, the ping interval and the last-ping timestamp as they
    were, and [isChangingStream] is false afterwards.  It either hands the
    item to the player, and then it is fulfilled, or it does not, and then
    the playback state is the one before, with [isChangingStream] false: a
    negotiation that fails, or that ends in an error message, changes no
    other field.  A negotiation that is rejected has loaded nothing. *)
Theorem X8_negotiation_loads_or_leaves env item options s :
  let r := playItemInternal env item options s in
  let tr := new_events (page s) (page (snd r)) in
  activePlaylist (mgr (snd r)) = activePlaylist (mgr s) ∧
  activePlaylistIndex (mgr (snd r)) = activePlaylistIndex (mgr s) ∧
  window (snd r) = window s ∧
  timers (page (snd r)) = timers (page s) ∧
  pingInterval (page (snd r)) = pingInterval (page s) ∧
  lastTranscoderPing (page (snd r)) = lastTranscoderPing (page s) ∧
  isChangingStream (playbackState (mgr (snd r))) = false ∧
  (existsb is_load tr = false →
     playbackState (mgr (snd r)) = set_isChangingStream false (playbackState (mgr s))) ∧
  (existsb is_load tr = true → fst r = Fulfilled tt) ∧
  (∀ reason, fst r = Rejected reason → existsb is_load tr = false).
Proof.
  cbn zeta. unfold playItemInternal, getPlaybackInfo, getLiveStream. cbv zeta.
  repeat case_match; negotiation_branch;
    (repeat split; try reflexivity; try discriminate; try (intros; discriminate)).
Qed.

Lemma X8_witness :
  let env := mkEnv getNextPlaybackItemInfo_spec None head (fun src => src)
               sampleCustomData (fun _ => None) None 0 in
  let r := playItemInternal env (Some sampleItem) sampleOptions playingSys in
  existsb is_load (new_events (page playingSys) (page (snd r))) = false ∧
  playbackState (mgr (snd r)) =
    set_isChangingStream false (playbackState (mgr playingSys)).
Proof.
  assert (existsb is_load
            (new_events (page playingSys)
               (page (snd (playItemInternal
                             (mkEnv getNextPlaybackItemInfo_spec None head (fun src => src)
                                sampleCustomData (fun _ => None) None 0)
                             (Some sampleItem) sampleOptions playingSys)))) = false)
    as Hnot by by vm_compute.
  split; [exact Hnot|].
  destruct (X8_negotiation_loads_or_leaves
              (mkEnv getNextPlaybackItemInfo_spec None head (fun src => src)
                 sampleCustomData (fun _ => None) None 0)
              (Some sampleItem) sampleOptions playingSys)
    as (_ & _ & _ & _ & _ & _ & _ & Hleft & _).
  exact (Hleft Hnot).
Defined.

(** ** How a negotiation fails *)

Ltac negotiation_path :=
  unfold playItemInternal, getPlaybackInfo, getLiveStream,
    request_events, playbackInfoRequest; cbv zeta.

(** X9.  When the server answers the request for playback info with an error
    code, the negotiation shows the message for that code; when it answers
    without one and no source is compatible, the message for
    NoCompatibleStream.  In both cases the promise is fulfilled, the request
    for playback info is the only request sent, nothing is handed to the
    player, and with an error code no source is chosen at all. *)
Theorem X9_negotiation_error_messages env it options s maxBitrate info :
  getMaxBitrate env = Some maxBitrate →
  answerPlaybackInfo env (Id it) = Some info →
  let r := playItemInternal env (Some it) options s in
  let tr := new_events (page s) (page (snd r)) in
  (∀ code, truthy (ErrorCode info) = Some code →
     fst r = Fulfilled tt ∧
     tr = request_events it options maxBitrate ++ [ShowPlaybackInfoErrorMessage code]) ∧
  (truthy (ErrorCode info) = None →
   getOptimalMediaSource env (MediaSources info) = None →
     fst r = Fulfilled tt ∧
     tr = request_events it options maxBitrate ++
          [Call "getOptimalMediaSource";
           ShowPlaybackInfoErrorMessage "NoCompatibleStream"]).
Proof.
  intros Hbit Hinfo. cbn zeta. negotiation_path. rewrite Hbit, Hinfo.
  split.
  - intros code ->. by negotiation_branch.
  - intros -> ->. by negotiation_branch.
Qed.

Lemma X9_witness :
  let env := mkEnv getNextPlaybackItemInfo_spec (Some 8000000) head (fun src => src)
               sampleCustomData
               (fun _ => Some (mkPlaybackInfo (Some "NotAllowed") [] "session-B"))
               None 0 in
  getMaxBitrate env = Some 8000000 ∧
  fst (playItemInternal env (Some sampleItem) sampleOptions sys0) = Fulfilled tt.
Proof.
  split; [reflexivity|].
  destruct (X9_negotiation_error_messages
              (mkEnv getNextPlaybackItemInfo_spec (Some 8000000) head (fun src => src)
                 sampleCustomData
                 (fun _ => Some (mkPlaybackInfo (Some "NotAllowed") [] "session-B"))
                 None 0)
              sampleItem sampleOptions sys0 8000000
              (mkPlaybackInfo (Some "NotAllowed") [] "session-B")
              eq_refl eq_refl) as [Hcode _].
  exact (proj1 (Hcode "NotAllowed" eq_refl)).
Defined.

(** X10.  A negotiation is rejected without any request when the bitrate
    cannot be determined or the item is undefined.  When the request for
    playback info itself fails, the connection error is broadcast and the
    negotiation is rejected by the read of [ErrorCode] of the undefined
    answer; no second request is made. *)
Theorem X10_negotiation_rejections env item options s :
  let r := playItemInternal env item options s in
  let tr := new_events (page s) (page (snd r)) in
  (getMaxBitrate env = None →
     fst r = Rejected "getMaxBitrate" ∧ filter is_request tr = []) ∧
  (item = None →
     (∃ reason, fst r = Rejected reason) ∧ filter is_request tr = []) ∧
  (∀ maxBitrate it,
     getMaxBitrate env = Some maxBitrate → item = Some it →
     answerPlaybackInfo env (Id it) = None →
     fst r = Rejected "TypeError" ∧
     tr = request_events it options maxBitrate ++
          [Call "broadcastConnectionErrorMessage"]).
Proof.
  cbn zeta. negotiation_path. split; [|split].
  - intros ->. by negotiation_branch.
  - intros ->. destruct (getMaxBitrate env); negotiation_branch; eauto.
  - intros maxBitrate it -> -> ->. by negotiation_branch.
Qed.

Lemma X10_witness :
  let env := mkEnv getNextPlaybackItemInfo_spec None head (fun src => src)
               sampleCustomData (fun _ => None) None 0 in
  getMaxBitrate env = None ∧
  fst (playItemInternal env (Some sampleItem) sampleOptions sys0) = Rejected "getMaxBitrate".
Proof.
  split; [reflexivity|].
  destruct (X10_negotiation_rejections
              (mkEnv getNextPlaybackItemInfo_spec None head (fun src => src)
                 sampleCustomData (fun _ => None) None 0)
              (Some sampleItem) sampleOptions sys0) as [Hbit _].
  exact (proj1 (Hbit eq_refl)).
Defined.

(** ** Sources that need no opening *)

(** X11.  A source that does not require opening is handed to the player as
    it was selected: no request to open a live stream is sent and
    [checkDirectPlay] is not called.  When the request to open a live stream
    is answered without a media source, the source that was selected is
    played, again without a call of [checkDirectPlay]. *)
Theorem X11_source_played_as_selected env it options s maxBitrate info src :
  getMaxBitrate env = Some maxBitrate →
  answerPlaybackInfo env (Id it) = Some info →
  truthy (ErrorCode info) = None →
  getOptimalMediaSource env (MediaSources info) = Some src →
  let r := playItemInternal env (Some it) options s in
  let tr := new_events (page s) (page (snd r)) in
  let st := set_isChangingStream false (playbackState (mgr s)) in
  (RequiresOpening src = false →
     fst r = Fulfilled tt ∧
     tr = request_events it options maxBitrate ++
          Call "getOptimalMediaSource" :: handoff_events ∧
     playbackState (mgr (snd r)) = published env (PlaySessionId info) it src options st) ∧
  (RequiresOpening src = true →
   answerLiveStream env = Some (mkLiveStream None) →
     fst r = Fulfilled tt ∧
     tr = negotiation_events it options maxBitrate info src ++ handoff_events ∧
     filter is_checkDirectPlay tr = [] ∧
     playbackState (mgr (snd r)) = published env (PlaySessionId info) it src options st).
Proof.
  intros Hbit Hinfo Herr Hsrc. cbn zeta. negotiation_path.
  rewrite Hbit, Hinfo, Herr, Hsrc. split.
  - intros ->. by negotiation_branch.
  - intros -> ->. cbn [MediaSource]. by negotiation_branch.
Qed.

Lemma X11_witness :
  let plain := mkMediaSource "source-2" false EmptyString true in
  let env := mkEnv getNextPlaybackItemInfo_spec (Some 8000000) head (fun src => src)
               sampleCustomData
               (fun _ => Some (mkPlaybackInfo None [plain] "session-B"))
               None 0 in
  RequiresOpening plain = false ∧
  playbackState (mgr (snd (playItemInternal env (Some sampleItem) sampleOptions sys0))) =
    published env "session-B" sampleItem plain sampleOptions
      (set_isChangingStream false initialPlaybackState).
Proof.
  split; [reflexivity|].
  destruct (X11_source_played_as_selected
           (mkEnv getNextPlaybackItemInfo_spec (Some 8000000) head (fun src => src)
              sampleCustomData
              (fun _ => Some (mkPlaybackInfo None
                                [mkMediaSource "source-2" false EmptyString true]
                                "session-B"))
              None 0)
           sampleItem sampleOptions sys0 8000000
           (mkPlaybackInfo None [mkMediaSource "source-2" false EmptyString true]
              "session-B")
           (mkMediaSource "source-2" false EmptyString true)
           eq_refl eq_refl eq_refl eq_refl) as [Hplain _].
  exact (proj2 (proj2 (Hplain eq_refl))).
Defined.

(** ** The playlist through stop and negotiation *)

Lemma activePlaylist_set_playlist l i s : activePlaylist (mgr (set_playlist l i s)) = l.
Proof. reflexivity. Qed.

Lemma activePlaylistIndex_set_playlist l i s :
  activePlaylistIndex (mgr (set_playlist l i s)) = i.
Proof. reflexivity. Qed.

(** What a negotiation leaves alone. *)
Lemma playItemInternal_frame env item options s :
  activePlaylist (mgr (snd (playItemInternal env item options s))) = activePlaylist (mgr s) ∧
  activePlaylistIndex (mgr (snd (playItemInternal env item options s))) =
    activePlaylistIndex (mgr s) ∧
  window (snd (playItemInternal env item options s)) = window s.
Proof.
  unfold playItemInternal, getPlaybackInfo, getLiveStream. cbv zeta.
  repeat case_match; cbn [snd]; autorewrite with projections; done.
Qed.

(** The manager's stop, in any state of the page: the second
    [stopPingInterval] finds the handle 0 and does nothing. *)
Lemma page_stop_any env continuing s :
  page (stop env continuing s) =
    append_events
      [Broadcast "playbackstop"
         (set_playNextItemBool continuing (playbackState (mgr s)))
         (getReportingParams (currentPositionTicks env)
            (set_playNextItemBool continuing (playbackState (mgr s))));
       AuthAjax SessionsPlayingStopped "POST"
         (ReportingParams
            (getReportingParams (currentPositionTicks env)
               (set_playNextItemBool continuing (playbackState (mgr s)))));
       Call "playerManager.stop";
       Call "DocumentManager.startBackdropInterval"]
      (stopPingInterval (page s)).
Proof.
  unfold stop, jellyfinActions_stop, reportPlaybackStopped. cbv zeta.
  autorewrite with projections. cbn [snd].
  unfold stopPingInterval at 1. cbn [emit pingInterval].
  rewrite pingInterval_stopPingInterval. cbn [handle_set Z.eqb negb].
  by rewrite ?emit_append, ?append_events_app.
Qed.

Lemma mgr_stop env continuing s :
  mgr (stop env continuing s) =
    mkManager (set_playNextItemBool continuing (playbackState (mgr s))) [] (-1) ∧
  window (stop env continuing s) = window s.
Proof. done. Qed.

Lemma trace_stop env continuing s :
  trace (page (stop env continuing s)) =
    trace (page s) ++ stop_events (page s) ++
    [Broadcast "playbackstop"
       (set_playNextItemBool continuing (playbackState (mgr s)))
       (getReportingParams (currentPositionTicks env)
          (set_playNextItemBool continuing (playbackState (mgr s))));
     AuthAjax SessionsPlayingStopped "POST"
       (ReportingParams
          (getReportingParams (currentPositionTicks env)
             (set_playNextItemBool continuing (playbackState (mgr s)))));
     Call "playerManager.stop";
     Call "DocumentManager.startBackdropInterval"].
Proof.
  rewrite page_stop_any. cbn [append_events trace].
  by rewrite trace_stopPingInterval, <- app_assoc.
Qed.

Lemma stop_reports_stop env continuing s :
  stop_reports (new_events (page s) (page (stop env continuing s))) =
    [playSessionId (playbackState (mgr s))].
Proof.
  rewrite (new_events_app _ _ _ (trace_stop env continuing s)).
  by rewrite stop_reports_app, stop_reports_stop_events.
Qed.

Lemma trace_playItemInternal env item options s :
  trace (page (snd (playItemInternal env item options s))) =
    trace (page s) ++ new_events (page s) (page (snd (playItemInternal env item options s))).
Proof.
  destruct (page_playItemInternal env item options s) as (l & Hl & _).
  rewrite Hl. by rewrite new_events_append.
Qed.

Lemma new_events_trans w1 w2 w3 l1 l2 :
  trace w2 = trace w1 ++ l1 → trace w3 = trace w2 ++ l2 →
  new_events w1 w3 = l1 ++ l2.
Proof. intros H1 H2. apply new_events_app. by rewrite H2, H1, app_assoc. Qed.

Lemma no_playerStop_negotiation env item options s :
  filter is_playerStop
    (new_events (page s) (page (snd (playItemInternal env item options s)))) = [].
Proof.
  unfold playItemInternal, getPlaybackInfo, getLiveStream. cbv zeta.
  repeat case_match; cbn [snd]; autorewrite with projections; page_of_calls;
    by rewrite new_events_append.
Qed.

(** [playItem] asks the player to stop once when it stops first, and not at
    all when not. *)
Lemma player_stops_playItem env item options stopPlayer s :
  filter is_playerStop
    (new_events (page s) (page (snd (playItem env item options stopPlayer s)))) =
    if stopPlayer then [Call "playerManager.stop"] else [].
Proof.
  unfold playItem, onStopPlayerBeforePlaybackDone. destruct stopPlayer.
  - rewrite (new_events_trans _ _ _ _ _ (trace_stop env true s)
               (trace_playItemInternal env item options (stop env true s))).
    rewrite !filter_app, no_playerStop_negotiation, app_nil_r.
    unfold stop_events. by destruct (handle_set (pingInterval (page s))).
  - apply no_playerStop_negotiation.
Qed.

Lemma playItem_frame env item options stopPlayer s :
  let s' := snd (playItem env item options stopPlayer s) in
  activePlaylist (mgr s') = (if stopPlayer then [] else activePlaylist (mgr s)) ∧
  activePlaylistIndex (mgr s') = (if stopPlayer then -1 else activePlaylistIndex (mgr s)) ∧
  window s' = window s.
Proof.
  cbn zeta. unfold playItem, onStopPlayerBeforePlaybackDone.
  destruct stopPlayer.
  - destruct (playItemInternal_frame env item options (stop env true s)) as (-> & -> & ->).
    done.
  - apply playItemInternal_frame.
Qed.

(** A negotiation without an item sends nothing. *)
Lemma no_request_without_item env options s :
  filter is_request
    (new_events (page s) (page (snd (playItemInternal env None options s)))) = [].
Proof.
  unfold playItemInternal. cbv zeta.
  destruct (getMaxBitrate env); cbn [snd]; page_of_calls; by rewrite new_events_append.
Qed.

(** ** A new play request *)

(** X12.  [playFromOptionsInternal] always replaces the playlist of the
    manager and the window globals (the new items, index -1), also when it
    returns false because there is no next item: then nothing else changes
    and nothing is stopped.  It returns true exactly when
    [getNextPlaybackItemInfo] finds an item.  With an empty playlist before,
    the item is negotiated without a stop and the manager keeps the new items
    and the index found.  With items in the playlist before, the player is
    asked to stop, once, and the stop empties the playlist of the manager and
    sets the index to -1 after they were set, while the window still holds
    the new items. *)
Theorem X12_playFromOptionsInternal env options s :
  let r := playFromOptionsInternal env options s in
  let g := mkWindow (items options) (-1) in
  let tr := new_events (page s) (page (snd r)) in
  window (snd r) = g ∧
  (fst r = true ↔ is_Some (getNextPlaybackItemInfo env g)) ∧
  (getNextPlaybackItemInfo env g = None →
     snd r = mkSys (mkManager (playbackState (mgr s)) (items options)
                      (activePlaylistIndex (mgr s))) g (page s)) ∧
  (∀ index it,
     getNextPlaybackItemInfo env g = Some (index, it) →
     (activePlaylist (mgr s) = [] →
        activePlaylist (mgr (snd r)) = items options ∧
        activePlaylistIndex (mgr (snd r)) = index ∧
        filter is_playerStop tr = []) ∧
     (activePlaylist (mgr s) ≠ [] →
        activePlaylist (mgr (snd r)) = [] ∧
        activePlaylistIndex (mgr (snd r)) = -1 ∧
        filter is_playerStop tr = [Call "playerManager.stop"])).
Proof.
  cbn zeta. unfold playFromOptionsInternal, playNextItem. cbv zeta.
  cbn [window mgr activePlaylist].
  destruct (getNextPlaybackItemInfo env (mkWindow (items options) (-1)))
    as [[index it]|] eqn:Hnext; cbn [fst snd].
  - split; [apply playItem_frame|]. split; [split; eauto|]. split; [done|].
    intros index' it' [= <- <-].
    match goal with
    | |- context [playItem env (Some it) options _ ?x] => set (s0 := x)
    end.
    split.
    + intros Hempty. rewrite Hempty. cbn [length Nat.eqb negb].
      destruct (playItem_frame env (Some it) options false s0) as (Hl & Hi & _).
      split; [exact Hl|]. split; [exact Hi|].
      exact (player_stops_playItem env (Some it) options false s0).
    + intros Hne.
      assert (negb (length (activePlaylist (mgr s)) =? 0)%nat = true) as ->
        by by destruct (activePlaylist (mgr s)).
      destruct (playItem_frame env (Some it) options true s0) as (Hl & Hi & _).
      split; [exact Hl|]. split; [exact Hi|].
      exact (player_stops_playItem env (Some it) options true s0).
  - split; [done|]. split; [split; [done | by intros [? ?]]|]. split; [done|].
    intros index it [=].
Qed.

Lemma X12_witness :
  let s := mkSys (mkManager initialPlaybackState [sampleItem] 0)
             (mkWindow [sampleItem] 0) world0 in
  getNextPlaybackItemInfo sampleEnv (mkWindow (items sampleOptions) (-1)) =
    Some (0, sampleItem) ∧
  activePlaylist (mgr s) ≠ [] ∧
  activePlaylist (mgr (snd (playFromOptionsInternal sampleEnv sampleOptions s))) = [].
Proof.
  split; [reflexivity|]. split; [done|].
  destruct (X12_playFromOptionsInternal sampleEnv sampleOptions
              (mkSys (mkManager initialPlaybackState [sampleItem] 0)
                 (mkWindow [sampleItem] 0) world0)) as (_ & _ & _ & Hnext).
  destruct (Hnext 0 sampleItem eq_refl) as [_ Hstop].
  apply Hstop. done.
Defined.

(** X13.  [playFromOptions] with an empty list of items is rejected, and the
    receiver is untouched, unless a start position is given; with a start
    position and no next item in the empty playlist it is fulfilled with
    false, has replaced the playlist by the empty one and has stopped
    nothing, whatever was playing.  With a first item it is fulfilled with
    the result of [playFromOptionsInternal]. *)
Theorem X13_playFromOptions_empty env options s :
  (items options = [] →
     (truthy_number (o_startPositionTicks options) = false →
        playFromOptions env options s = (Rejected "TypeError", s)) ∧
     (truthy_number (o_startPositionTicks options) = true →
      getNextPlaybackItemInfo env (mkWindow [] (-1)) = None →
        playFromOptions env options s =
          (Fulfilled false,
           mkSys (mkManager (playbackState (mgr s)) [] (activePlaylistIndex (mgr s)))
             (mkWindow [] (-1)) (page s)))) ∧
  (items options ≠ [] →
     playFromOptions env options s =
       (Fulfilled (fst (playFromOptionsInternal env options s)),
        snd (playFromOptionsInternal env options s))).
Proof.
  unfold playFromOptions. split.
  - intros Hempty. rewrite Hempty. cbn [head]. split.
    + by intros ->.
    + intros -> Hnext.
      unfold playFromOptionsInternal, playNextItem. cbv zeta.
      rewrite Hempty. cbn [window]. by rewrite Hnext.
  - intros Hne. by destruct (items options).
Qed.

Lemma X13_witness :
  items (mkOptions [] None None None None) = [] ∧
  truthy_number (o_startPositionTicks (mkOptions [] None None None None)) = false ∧
  playFromOptions sampleEnv (mkOptions [] None None None None) playingSys =
    (Rejected "TypeError", playingSys).
Proof.
  split; [reflexivity|]. split; [reflexivity|].
  destruct (X13_playFromOptions_empty sampleEnv (mkOptions [] None None None None)
              playingSys) as [Hempty _].
  exact (proj1 (Hempty eq_refl) eq_refl).
Defined.

(** ** Going back and forth *)

(** X14.  When the playlist index is above 0, [playPreviousItem] returns
    true, asks the player to stop, once, and negotiates the item at the index
    before: one request for playback info
    for that item when the bitrate is known, none when the playlist has no
    item there.  The stop empties the playlist and sets the index to -1, so a
    second [playPreviousItem] returns false and changes nothing. *)
Theorem X14_playPreviousItem_once env options s :
  0 < activePlaylistIndex (mgr s) →
  let r := playPreviousItem env options s in
  let tr := new_events (page s) (page (snd r)) in
  fst r = true ∧
  activePlaylist (mgr (snd r)) = [] ∧
  activePlaylistIndex (mgr (snd r)) = -1 ∧
  window (snd r) = window s ∧
  playPreviousItem env options (snd r) = (false, snd r) ∧
  filter is_playerStop tr = [Call "playerManager.stop"] ∧
  (∀ maxBitrate,
     getMaxBitrate env = Some maxBitrate →
     filter is_playbackInfo tr =
       match activePlaylist (mgr s) !! Z.to_nat (activePlaylistIndex (mgr s) - 1) with
       | Some it => [playbackInfoRequest it options maxBitrate]
       | None => []
       end).
Proof.
  intros Hidx. cbn zeta. unfold playPreviousItem.
  assert ((0 <? activePlaylistIndex (mgr s)) = true) as -> by lia.
  cbv zeta. cbn [fst snd].
  set (s0 := set_activePlaylistIndex (activePlaylistIndex (mgr s) - 1) s).
  set (it := activePlaylist (mgr s0) !! Z.to_nat (activePlaylistIndex (mgr s0))).
  destruct (playItem_frame env it options true s0) as (Hl & Hi & Hw).
  cbn zeta in Hl, Hi, Hw.
  split; [done|]. split; [exact Hl|]. split; [exact Hi|]. split; [exact Hw|].
  split; [by rewrite Hi|].
  split; [apply (player_stops_playItem env it options true s0)|].
  intros maxBitrate Hbit.
  change (page s) with (page s0).
  unfold playItem, onStopPlayerBeforePlaybackDone.
  rewrite (new_events_trans _ _ _ _ _ (trace_stop env true s0)
             (trace_playItemInternal env it options (stop env true s0))).
  rewrite filter_app, filter_app, no_playbackInfo_stop_events. cbn [app].
  change (activePlaylist (mgr s) !! Z.to_nat (activePlaylistIndex (mgr s) - 1)) with it.
  destruct it as [item|].
  - by rewrite (playbackInfo_requests _ _ _ _ _ Hbit).
  - pose proof (no_request_without_item env options (stop env true s0)) as Hnone.
    destruct (page_playItemInternal env None options (stop env true s0)) as (l & Hpage & _).
    rewrite Hpage, new_events_append in Hnone |- *.
    clear -Hnone. induction l as [|e l IH]; [done|].
    rewrite filter_cons in Hnone |- *.
    destruct e as [ | [] | | | | | | | ]; try done; apply IH;
      by repeat case_decide.
Qed.

Lemma X14_witness :
  let s := mkSys (mkManager initialPlaybackState [sampleItem; sampleItem] 1)
             (mkWindow [sampleItem; sampleItem] 1) world0 in
  0 < activePlaylistIndex (mgr s) ∧
  fst (playPreviousItem sampleEnv sampleOptions s) = true ∧
  activePlaylist (mgr (snd (playPreviousItem sampleEnv sampleOptions s))) = [].
Proof.
  split; [done|].
  destruct (X14_playPreviousItem_once sampleEnv sampleOptions
              (mkSys (mkManager initialPlaybackState [sampleItem; sampleItem] 1)
                 (mkWindow [sampleItem; sampleItem] 1) world0))
    as (Htrue & Hl & _); [done|].
  split; [exact Htrue | exact Hl].
Defined.

(** X15.  When [getNextPlaybackItemInfo] finds an item, [playNextItem]
    returns true whether the negotiation that it starts is fulfilled or
    rejected, and asks for playback info for that item once when the bitrate
    is known.  Without a stop the player is not asked to stop, the playlist
    is kept and the index is the one found; with a stop the player is asked
    to stop once, and the playlist is empty and the index -1 afterwards. *)
Theorem X15_playNextItem_advances env options stopPlayer s index it :
  getNextPlaybackItemInfo env (window s) = Some (index, it) →
  let r := playNextItem env options stopPlayer s in
  let tr := new_events (page s) (page (snd r)) in
  fst r = true ∧
  window (snd r) = window s ∧
  activePlaylist (mgr (snd r)) = (if stopPlayer then [] else activePlaylist (mgr s)) ∧
  activePlaylistIndex (mgr (snd r)) = (if stopPlayer then -1 else index) ∧
  filter is_playerStop tr = (if stopPlayer then [Call "playerManager.stop"] else []) ∧
  (∀ maxBitrate,
     getMaxBitrate env = Some maxBitrate →
     filter is_playbackInfo tr = [playbackInfoRequest it options maxBitrate]).
Proof.
  intros Hnext. cbn zeta. unfold playNextItem. rewrite Hnext. cbn [fst snd].
  set (s0 := set_activePlaylistIndex index s).
  destruct (playItem_frame env (Some it) options stopPlayer s0) as (Hl & Hi & Hw).
  cbn zeta in Hl, Hi, Hw.
  split; [done|]. split; [exact Hw|]. split; [exact Hl|]. split; [exact Hi|].
  split; [apply (player_stops_playItem env (Some it) options stopPlayer s0)|].
  intros maxBitrate Hbit. change (page s) with (page s0).
  unfold playItem, onStopPlayerBeforePlaybackDone. destruct stopPlayer.
  - rewrite (new_events_trans _ _ _ _ _ (trace_stop env true s0)
               (trace_playItemInternal env (Some it) options (stop env true s0))).
    rewrite filter_app, filter_app, no_playbackInfo_stop_events. cbn [app].
    by rewrite (playbackInfo_requests _ _ _ _ _ Hbit).
  - by rewrite (playbackInfo_requests _ _ _ _ _ Hbit).
Qed.

Lemma X15_witness :
  let s := mkSys (mkManager initialPlaybackState [sampleItem] 0)
             (mkWindow [sampleItem] (-1)) world0 in
  getNextPlaybackItemInfo sampleEnv (window s) = Some (0, sampleItem) ∧
  fst (playNextItem sampleEnv sampleOptions false s) = true.
Proof.
  split; [reflexivity|].
  apply (X15_playNextItem_advances sampleEnv sampleOptions false
           (mkSys (mkManager initialPlaybackState [sampleItem] 0)
              (mkWindow [sampleItem] (-1)) world0) 0 sampleItem).
  reflexivity.
Defined.

(** ** The manager's stop *)


(** * Further properties of the bitrate probe *)

Lemma detectBitrate_sizes_S fuel net numBytes :
  detectBitrate_sizes (S fuel) net numBytes =
    let clamped := if byteLimit <? numBytes then byteLimit else numBytes in
    clamped ::
    match net O with
    | Failed => []
    | Answered elapsed =>
        if quarter_lt (downloadSpeed clamped elapsed) clamped || (byteLimit <=? clamped)
        then []
        else detectBitrate_sizes fuel (fun k => net (S k)) (clamped * 2)
    end.
Proof. reflexivity. Qed.

Lemma detectBitrate_sizes_bounded fuel net numBytes :
  Forall (fun size => size ≤ byteLimit) (detectBitrate_sizes fuel net numBytes).
Proof.
  revert net numBytes. induction fuel as [|fuel IH]; intros net n; [constructor|].
  rewrite detectBitrate_sizes_S. cbv zeta. constructor.
  - destruct (byteLimit <? n) eqn:E; lia.
  - destruct (net 0%nat); [|constructor].
    destruct (_ || _); [constructor | apply IH].
Qed.

Lemma detectBitrate_sizes_positive fuel net numBytes :
  0 < numBytes → Forall (fun size => 0 < size) (detectBitrate_sizes fuel net numBytes).
Proof.
  revert net numBytes. induction fuel as [|fuel IH]; intros net n Hn; [constructor|].
  rewrite detectBitrate_sizes_S. cbv zeta.
  assert (0 < (if byteLimit <? n then byteLimit else n))
    by (unfold byteLimit; destruct (_ <? n); lia).
  constructor; [done|].
  destruct (net 0%nat); [|constructor].
  destruct (_ || _); [constructor | apply IH; lia].
Qed.

Lemma detectBitrate_sizes_doubling fuel net numBytes :
  doubling (detectBitrate_sizes fuel net numBytes).
Proof.
  revert net numBytes. induction fuel as [|fuel IH]; intros net n; [done|].
  rewrite detectBitrate_sizes_S. cbv zeta.
  destruct (net 0%nat) as [elapsed|]; [|done].
  destruct (_ || _); [done|].
  specialize (IH (fun k => net (S k)) ((if byteLimit <? n then byteLimit else n) * 2)).
  destruct fuel as [|fuel]; [done|].
  rewrite detectBitrate_sizes_S in IH |- *. cbv zeta in IH |- *.
  split; [|exact IH].
  unfold byteLimit. destruct (10000000 <? n) eqn:E1;
    destruct (10000000 <? _ * 2) eqn:E2; lia.
Qed.

Lemma detectBitrate_sizes_length fuel net numBytes k :
  0 < numBytes → byteLimit ≤ numBytes * 2 ^ Z.of_nat k →
  (length (detectBitrate_sizes fuel net numBytes) ≤ S k)%nat.
Proof.
  revert fuel net numBytes.
  induction k as [|k IH]; intros fuel net n Hpos Hbig;
    (destruct fuel as [|fuel]; [simpl; lia|]);
    rewrite detectBitrate_sizes_S; cbv zeta; cbn [length];
    (destruct (net 0%nat) as [elapsed|]; [|simpl; lia]).
  - assert ((byteLimit <=? (if byteLimit <? n then byteLimit else n)) = true) as ->.
    { cbn in Hbig. destruct (byteLimit <? n) eqn:E; lia. }
    rewrite orb_true_r. simpl. lia.
  - destruct (byteLimit <? n) eqn:E.
    + assert ((byteLimit <=? byteLimit) = true) as -> by lia.
      rewrite orb_true_r. simpl. lia.
    + destruct (_ || _); [simpl; lia|].
      apply le_n_S, IH; [lia|].
      rewrite Nat2Z.inj_succ, Z.pow_succ_r in Hbig by lia. lia.
Qed.

(** X17.  Whatever the server answers and however far the probe gets, every
    request of [detectBitrate] asks for at most 10000000 bytes, and each
    request asks for twice the size of the one before, or for the limit when
    that is less.  For a positive [numBytes] every size is positive and there
    are at most 25 requests; the default call, which starts with 500000
    bytes, sends at most 6. *)
Theorem X17_detectBitrate_request_sizes fuel net numBytes :
  Forall (fun size => size ≤ byteLimit) (detectBitrate_sizes fuel net numBytes) ∧
  doubling (detectBitrate_sizes fuel net numBytes) ∧
  (0 < numBytes →
     Forall (fun size => 0 < size) (detectBitrate_sizes fuel net numBytes) ∧
     (length (detectBitrate_sizes fuel net numBytes) ≤ 25)%nat) ∧
  (length (detectBitrate_sizes fuel net 500000) ≤ 6)%nat.
Proof.
  split; [apply detectBitrate_sizes_bounded|].
  split; [apply detectBitrate_sizes_doubling|]. split.
  - intros Hpos. split; [by apply detectBitrate_sizes_positive|].
    apply (detectBitrate_sizes_length _ _ _ 24); [done|].
    unfold byteLimit. change (2 ^ Z.of_nat 24) with 16777216. lia.
  - apply (detectBitrate_sizes_length _ _ _ 5); [done|].
    unfold byteLimit. change (2 ^ Z.of_nat 5) with 32. lia.
Qed.

Lemma X17_witness :
  0 < 500000 ∧
  detectBitrate_sizes 25 (fun _ => Answered 100) 500000 =
    [500000; 1000000; 2000000; 4000000; 8000000; 10000000] ∧
  (length (detectBitrate_sizes 25 (fun _ => Answered 100) 500000) ≤ 25)%nat.
Proof.
  split; [done|]. split; [by vm_compute|].
  apply (X17_detectBitrate_request_sizes 25 (fun _ => Answered 100) 500000). done.
Defined.

(** X18.  [detectBitrate] sends exactly the requests that it needs for its
    result: when it returns after [n] requests, the first [n - 1] were all
    answered, and it is rejected if and only if the last one failed; a failed
    probe is not retried and ends the detection.  A call with [numBytes] at
    or above the limit sends one request, for 10000000 bytes. *)
Theorem X18_detectBitrate_failure_ends fuel net numBytes r :
  detectBitrate fuel net numBytes = Some r →
  let n := length (detectBitrate_sizes fuel net numBytes) in
  (1 ≤ n ≤ fuel)%nat ∧
  (∀ k, (S k < n)%nat → net k ≠ Failed) ∧
  (r = Rejected "BitrateTest" ↔ net (pred n) = Failed) ∧
  (byteLimit ≤ numBytes → detectBitrate_sizes fuel net numBytes = [byteLimit]).
Proof.
  revert net numBytes. induction fuel as [|fuel IH]; intros net n0; [done|].
  rewrite detectBitrate_S, detectBitrate_sizes_S. cbv zeta.
  destruct (net 0%nat) as [elapsed|] eqn:E0.
  - destruct (quarter_lt _ _ || (byteLimit <=? _)) eqn:Estop.
    + intros [= <-]. cbn [length pred]. split; [lia|]. split; [intros k Hk; lia|].
      split; [by rewrite E0|].
      intros Hbig. f_equal. destruct (byteLimit <? n0) eqn:E; lia.
    + intros Hr. specialize (IH _ _ Hr). cbv zeta in IH.
      destruct IH as (Hn & Hall & Hlast & _). cbn [length].
      split; [lia|]. split; [|split].
      * intros [|k] Hk; [by rewrite E0 | apply Hall; lia].
      * rewrite Hlast.
        destruct (length (detectBitrate_sizes fuel (fun k => net (S k)) _)) as [|m];
          [lia | done].
      * intros Hbig. apply orb_false_iff in Estop as [_ Estop].
        destruct (byteLimit <? n0) eqn:E; lia.
  - intros [= <-]. cbn [length pred]. split; [lia|]. split; [intros k Hk; lia|].
    split; [done|].
    intros Hbig. f_equal. destruct (byteLimit <? n0) eqn:E; lia.
Qed.

Lemma X18_witness :
  let net := fun k => match k with 1%nat => Failed | _ => Answered 100 end in
  detectBitrate 25 net 500000 = Some (Rejected "BitrateTest") ∧
  detectBitrate_sizes 25 net 500000 = [500000; 1000000] ∧
  net 1%nat = Failed.
Proof.
  assert (detectBitrate 25
            (fun k => match k with 1%nat => Failed | _ => Answered 100 end) 500000 =
          Some (Rejected "BitrateTest")) as Hr by by vm_compute.
  split; [exact Hr|]. split; [by vm_compute|].
  destruct (X18_detectBitrate_failure_ends _ _ _ _ Hr) as (_ & _ & Hlast & _).
  exact (proj1 Hlast eq_refl).
Defined.
